(** * Batching rules for random operators under vmap

    A shallow embedding of [functorch/csrc/BatchRulesRandomness.cpp].

    The file intercepts the random operators ([randn], [rand], [randint],
    [randperm], [random_], [normal_] and their overloads) while a vmap
    layer is active and decides, from the layer's randomness mode, whether
    to raise, to draw once, or to draw once per batch element.

    The operators being wrapped, and the ATen primitives the rules call
    ([at::empty], [Tensor::copy_], [at::stack], [Tensor::movedim]), live
    outside the file.  They are gathered in the interface [ATen]; the real
    random operator of each rule is the template parameter [Func] of the
    source and stays a parameter here.  Every rule is a computation in a
    state-and-exception monad over a [World] that holds the dynamic layer
    stack, the thread-local dispatch-key exclusion, the ATen state
    (generators and tensor storage) and a log of the external calls made. *)

From Stdlib Require Import ZArith String Lia.
From stdpp Require Import base list.

Local Open Scope Z_scope.

(** ** Data model *)

(** [enum class RandomnessType] of DynamicLayer.h. *)
Inductive RandomnessType : Type :=
| Error
| Same
| Different.

#[global] Instance RandomnessType_eq_dec : EqDecision RandomnessType.
Proof. solve_decision. Defined.

(** What the rules read of a [DynamicLayer]: [batchSize()], [layerId()]
    and [randomness()], the first two [int64_t]. *)
Record DynamicLayer : Type := mkLayer {
  batchSize : Z;
  layerId : Z;
  randomness : RandomnessType
}.

(** Tensor handles.  A default-constructed [at::Tensor] is undefined; an
    ordinary tensor is an implementation handle of the runtime; a
    [BatchedTensorImpl] wraps a tensor with its batch dimension and the
    level of the layer that owns it. *)
Inductive Tensor (TensorImpl : Type) : Type :=
| undefined_tensor
| plain (impl : TensorImpl)
| batched (value : Tensor TensorImpl) (bdim : Z) (level : Z).

Arguments undefined_tensor {TensorImpl}.
Arguments plain {TensorImpl} impl.
Arguments batched {TensorImpl} value bdim level.

(** Exceptions that can leave a rule. *)
Inductive Exn : Type :=
| c10_Error (msg : string)      (* thrown by TORCH_CHECK, here or in ATen *)
| std_length_error               (* std::vector asked for too many elements *)
| bad_optional_access.           (* [->] on an empty optional *)

Inductive Result (A : Type) : Type :=
| Ok (a : A)
| Throw (e : Exn).

Arguments Ok {A} a.
Arguments Throw {A} e.

(** The external runtime.  [State] is everything ATen owns that a call
    can change: generator states and tensor storage.  An external call
    maps a state to a result (or an exception) and a new state.  [read]
    observes one element of a tensor in a state, by multi-index; it is
    used in the contracts of the primitives only, never by the rules. *)
Class ATen : Type := {
  TensorImpl : Type;
  TensorOptions : Type;
  State : Type;
  impl_sizes : TensorImpl → list Z;
  at_options : Tensor TensorImpl → TensorOptions;
  at_movedim : Tensor TensorImpl → Z → Z → Tensor TensorImpl;
  at_empty : list Z → TensorOptions → State → Result (Tensor TensorImpl) * State;
  at_copy_ : Tensor TensorImpl → Tensor TensorImpl → bool → State →
             Result (Tensor TensorImpl) * State;
  at_stack : list (Tensor TensorImpl) → Z → State →
             Result (Tensor TensorImpl) * State;
  read : State → Tensor TensorImpl → list Z → option Z
}.

Section Rules.
Context `{A : ATen}.

Definition tensor : Type := Tensor TensorImpl.

(** An external call. *)
Definition Ext (T : Type) : Type := State → Result T * State.

(** The log of external calls, oldest first, with the argument each rule
    computes itself; the forwarded extra arguments are opaque. *)
Inductive Call : Type :=
| call_Func_shape (shape : list Z)
| call_Func_inplace (self : tensor)
| call_Func_perm (n : Z)
| call_empty (size : list Z)
| call_copy_ (self src : tensor)
| call_stack (tensors : list tensor).

Record World : Type := mkWorld {
  dynamicLayerStack : list DynamicLayer;  (* innermost layer last *)
  tls_excluded : bool;                    (* kVmapModeKey is in the TLS exclude set *)
  aten : State;
  calls : list Call
}.

(** ** The monad of the rules *)

Definition M (T : Type) : Type := World → Result T * World.

Definition ret {T} (x : T) : M T := fun w => (Ok x, w).

Definition throw {T} (e : Exn) : M T := fun w => (Throw e, w).

Definition bind {T U} (m : M T) (k : T → M U) : M U :=
  fun w =>
    match m w with
    | (Ok x, w') => k x w'
    | (Throw e, w') => (Throw e, w')
    end.

Notation "x <- m ;; k" := (bind m (fun x => k))
  (at level 100, m at next level, right associativity, only parsing).
Notation "m ;;; k" := (bind m (fun _ => k))
  (at level 100, right associativity, only parsing).

(** Run an external call on the ATen state and log it. *)
Definition invoke {T} (c : Call) (f : Ext T) : M T :=
  fun w =>
    let (r, s) := f (aten w) in
    (r, mkWorld (dynamicLayerStack w) (tls_excluded w) s (calls w ++ [c])).

(** [TORCH_CHECK(cond, msg)]. *)
Definition TORCH_CHECK (cond : bool) (msg : string) : M unit :=
  if cond then ret tt else throw (c10_Error msg).

(** [c10::impl::ExcludeDispatchKeyGuard guard(kVmapModeKey)] around a
    body: the key is excluded while the body runs and the previous
    exclusion is put back when the scope is left, by return or by
    exception. *)
Definition ExcludeDispatchKeyGuard {T} (body : M T) : M T :=
  fun w =>
    let saved := tls_excluded w in
    let (r, w') := body (mkWorld (dynamicLayerStack w) true (aten w) (calls w)) in
    (r, mkWorld (dynamicLayerStack w') saved (aten w') (calls w')).

(** [maybe_layer->]: the source dereferences the optional unchecked, which
    is undefined on an empty one; no rule is registered to run without a
    layer, and the case is kept apart here as an exception of its own. *)
Definition deref {T} (o : option T) : M T :=
  match o with
  | Some x => ret x
  | None => throw bad_optional_access
  end.

(** [optional::has_value]. *)
Definition has_value {T} (o : option T) : bool :=
  match o with
  | Some _ => true
  | None => false
  end.

(** ** Helpers of functorch used by the rules *)

(** Modelled from the spec: [maybeCurrentDynamicLayer] of DynamicLayer.cpp
    is missing; it yields the innermost currently active layer, if any,
    as a copy. *)
Definition maybeCurrentDynamicLayer : M (option DynamicLayer) :=
  fun w => (Ok (last (dynamicLayerStack w)), w).

(** Modelled from the spec: [makeBatched] of BatchedTensorImpl.cpp is
    missing; it wraps a tensor, a dimension index and a layer id into a
    batched result. *)
Definition makeBatched (t : tensor) (bdim level : Z) : tensor :=
  batched t bdim level.

(** Modelled from the spec: [unwrapTensorAtLevel] of BatchedTensorImpl.cpp
    is missing; given a tensor and a layer id it produces the unwrapped
    value and the batch dimension the tensor carries at that layer, if it
    carries one. *)
Definition unwrapTensorAtLevel (t : tensor) (level : Z) : tensor * option Z :=
  match t with
  | batched value bdim l =>
      if bool_decide (l = level) then (value, Some bdim) else (t, None)
  | _ => (t, None)
  end.

(** Modelled from the spec: [moveBatchDimToFront] of BatchRulesHelper.cpp
    is missing; it moves the batch dimension, when there is one and it is
    not in front already, to position 0. *)
Definition moveBatchDimToFront (t : tensor) (maybe_batch_dim : option Z) : tensor :=
  match maybe_batch_dim with
  | None => t
  | Some d => if bool_decide (d = 0) then t else at_movedim t d 0
  end.

(** Modelled from the spec: [Tensor::sizes] is missing; on a batched
    tensor it is the logical shape, the shape of the value without the
    batch dimension. *)
Fixpoint sizes (t : tensor) : list Z :=
  match t with
  | undefined_tensor => []
  | plain impl => impl_sizes impl
  | batched value bdim _ => delete (Z.to_nat bdim) (sizes value)
  end.

(** ** The rules *)

Definition RandomnessModeError : Exn :=
  c10_Error
    ("vmap: called random operation while in randomness error mode. Please either use the " ++
     "'same' or 'different' randomness flags on vmap or perform the randomness operation out of vmap").

Definition UnsupportedInplaceRandomnessError : Exn :=
  c10_Error
    ("vmap: Cannot ask for different inplace randomness on an unbatched tensor. This will appear like same randomness. " ++
     "If this is necessary for your usage, please file an issue with functorch.").

Definition msg_of (e : Exn) : string :=
  match e with
  | c10_Error msg => msg
  | _ => ""%string
  end.

Definition check_randomness (randomness : RandomnessType) : M unit :=
  TORCH_CHECK (negb (bool_decide (randomness = Error)))
              (msg_of RandomnessModeError).

Definition random_batching_rule {ExtraArgs : Type}
    (Func : list Z → ExtraArgs → Ext tensor)
    (shape : list Z) (extra_args : ExtraArgs) : M tensor :=
  ExcludeDispatchKeyGuard (
    maybe_layer <- maybeCurrentDynamicLayer ;;
    layer <- deref maybe_layer ;;
    let shapeVec := [batchSize layer] ++ shape in
    let randomness := randomness layer in
    check_randomness randomness ;;;
    if bool_decide (randomness = Different) then
      t <- invoke (call_Func_shape shapeVec) (Func shapeVec extra_args) ;;
      ret (makeBatched t 0 (layerId layer))
    else
      invoke (call_Func_shape shape) (Func shape extra_args)).

Definition random_inplace_batching_rule {ExtraArgs : Type}
    (Func : tensor → ExtraArgs → Ext tensor)
    (self : tensor) (extra_args : ExtraArgs) : M tensor :=
  ExcludeDispatchKeyGuard (
    maybe_layer <- maybeCurrentDynamicLayer ;;
    layer <- deref maybe_layer ;;
    let cur_level := layerId layer in
    let '(self_value, self_bdim) := unwrapTensorAtLevel self cur_level in
    let self_value := moveBatchDimToFront self_value self_bdim in
    let randomness := randomness layer in
    check_randomness randomness ;;;
    TORCH_CHECK
      (negb (bool_decide (randomness = Different) && negb (has_value self_bdim)))
      (msg_of UnsupportedInplaceRandomnessError) ;;;
    if bool_decide (randomness = Same) && has_value self_bdim then
      intermediate <- invoke (call_empty (sizes self))
                             (at_empty (sizes self) (at_options self)) ;;
      invoke (call_Func_inplace intermediate) (Func intermediate extra_args) ;;;
      invoke (call_copy_ self intermediate) (at_copy_ self intermediate false) ;;;
      ret self
    else
      invoke (call_Func_inplace self_value) (Func self_value extra_args) ;;;
      ret self).

(** [max_size()] of a [std::vector<at::Tensor>]: [PTRDIFF_MAX] divided by
    the size of an [at::Tensor], which is one pointer of 8 bytes; that
    is, 2^60 - 1. *)
Definition vector_max_size : Z := 1152921504606846975.

(** [std::vector<at::Tensor> stackedList(batch_size)]: [batch_size]
    undefined tensors.  The constructor first checks the count against
    [max_size()] and throws [std::length_error] beyond it; a negative
    [int64_t] converts to a [size_type] of 2^63 or more, beyond it too.
    Exhaustion of memory is not modelled, here as for every allocation
    of the runtime. *)
Definition new_stackedList (batch_size : Z) : M (list tensor) :=
  if (batch_size <? 0) || (vector_max_size <? batch_size)
  then throw std_length_error
  else ret (replicate (Z.to_nat batch_size) undefined_tensor).

(** The body of [for (idx = 0; idx < batch_size; ++idx)], by recursion on
    the number [batch_size - idx] of iterations left. *)
Fixpoint randperm_loop {ExtraArgs : Type}
    (Func : Z → ExtraArgs → Ext tensor) (n : Z) (extra_args : ExtraArgs)
    (remaining idx : nat) (stackedList : list tensor) : M (list tensor) :=
  match remaining with
  | O => ret stackedList
  | S remaining' =>
      t <- invoke (call_Func_perm n) (Func n extra_args) ;;
      randperm_loop Func n extra_args remaining' (S idx) (<[idx := t]> stackedList)
  end.

Definition randperm_batching_rule {ExtraArgs : Type}
    (Func : Z → ExtraArgs → Ext tensor)
    (n : Z) (extra_args : ExtraArgs) : M tensor :=
  ExcludeDispatchKeyGuard (
    maybe_layer <- maybeCurrentDynamicLayer ;;
    layer <- deref maybe_layer ;;
    let batch_size := batchSize layer in
    let randomness := randomness layer in
    check_randomness randomness ;;;
    if bool_decide (randomness = Different) then
      stackedList <- new_stackedList batch_size ;;
      stackedList <- randperm_loop Func n extra_args (Z.to_nat batch_size) O stackedList ;;
      stacked <- invoke (call_stack stackedList) (at_stack stackedList 0) ;;
      ret (makeBatched stacked 0 (layerId layer))
    else
      res <- invoke (call_Func_perm n) (Func n extra_args) ;;
      ret res).

(** ** The helpers registered with the dispatcher

    The parameter pack [T...] of the source is one type [ExtraArgs]; a
    pack that starts with bounds is a tuple that starts with them. *)

Definition RandomBatchRuleHelper_apply {ExtraArgs : Type}
    (Func : list Z → ExtraArgs → Ext tensor)
    (shape : list Z) (extra_args : ExtraArgs) : M tensor :=
  random_batching_rule Func shape extra_args.

Definition rand_int_wrapper {ExtraArgs : Type}
    (Func : Z → list Z → ExtraArgs → Ext tensor)
    (shape : list Z) (args : Z * ExtraArgs) : Ext tensor :=
  let '(high, extra_args) := args in
  Func high shape extra_args.

Definition RandomInplaceBatchRuleHelper_apply {ExtraArgs : Type}
    (Func : tensor → ExtraArgs → Ext tensor)
    (self : tensor) (extra_args : ExtraArgs) : M tensor :=
  random_inplace_batching_rule Func self extra_args.

Definition RandIntBatchRuleHelper_apply {ExtraArgs : Type}
    (Func : Z → list Z → ExtraArgs → Ext tensor)
    (high : Z) (shape : list Z) (extra_args : ExtraArgs) : M tensor :=
  random_batching_rule (rand_int_wrapper Func) shape (high, extra_args).

Definition rand_int_low_wrapper {ExtraArgs : Type}
    (Func : Z → Z → list Z → ExtraArgs → Ext tensor)
    (shape : list Z) (args : Z * Z * ExtraArgs) : Ext tensor :=
  let '(high, low, extra_args) := args in
  Func high low shape extra_args.

Definition RandIntLowBatchRuleHelper_apply {ExtraArgs : Type}
    (Func : Z → Z → list Z → ExtraArgs → Ext tensor)
    (high low : Z) (shape : list Z) (extra_args : ExtraArgs) : M tensor :=
  random_batching_rule (rand_int_low_wrapper Func) shape (high, low, extra_args).

Definition RandpermBatchRuleHelper_apply {ExtraArgs : Type}
    (Func : Z → ExtraArgs → Ext tensor)
    (n : Z) (extra_args : ExtraArgs) : M tensor :=
  randperm_batching_rule Func n extra_args.

(** ** Vocabulary of the statements *)

(** The world after one external call made from [w]: only the ATen state
    and the log differ. *)
Definition after_call (w : World) (c : Call) (s : State) : World :=
  mkWorld (dynamicLayerStack w) (tls_excluded w) s (calls w ++ [c]).

(** What a rule yields when it makes the single external call [c], whose
    outcome is [x], and hands back the result through [f]. *)
Definition outcome {T U} (f : T → U) (c : Call) (x : Result T * State)
    (w : World) : Result U * World :=
  (match x.1 with Ok t => Ok (f t) | Throw e => Throw e end, after_call w c x.2).

(** The spec's words for the permutation loop: one draw per iteration,
    collected in order, each from the state the previous draw left. *)
Fixpoint sequential_draws {ExtraArgs : Type}
    (Func : Z → ExtraArgs → Ext tensor) (n : Z) (extra_args : ExtraArgs)
    (count : nat) (s : State) : Result (list tensor) * State :=
  match count with
  | O => (Ok [], s)
  | S count' =>
      match Func n extra_args s with
      | (Ok t, s') =>
          match sequential_draws Func n extra_args count' s' with
          | (Ok ts, s'') => (Ok (t :: ts), s'')
          | (Throw e, s'') => (Throw e, s'')
          end
      | (Throw e, s') => (Throw e, s')
      end
  end.

Definition defined (t : tensor) : Prop := t ≠ undefined_tensor.

(** Index [idx] with [b] put in at position [d]. *)
Definition insert_at (d b : Z) (idx : list Z) : list Z :=
  take (Z.to_nat d) idx ++ b :: drop (Z.to_nat d) idx.

(** Size of a tensor along dimension [d]. *)
Definition size_at (t : tensor) (d : Z) : Z :=
  default 0 (sizes t !! Z.to_nat d).

(** The [n] elements of a tensor under the index prefix [prefix]. *)
Definition row (s : State) (t : tensor) (prefix : list Z) (n : Z) : list (option Z) :=
  (λ j, read s t (prefix ++ [j])) <$> seqZ 0 n.

Definition is_permutation_of_range (n : Z) (l : list (option Z)) : Prop :=
  l ≡ₚ (Some <$> seqZ 0 n).

(** A call from [s] to [s'] leaves every element that could be read
    before as it was. *)
Definition preserves (s s' : State) : Prop :=
  ∀ t idx v, read s t idx = Some v → read s' t idx = Some v.

(** The calls of a log that are calls of a real random operator. *)
Definition is_operator_call (c : Call) : bool :=
  match c with
  | call_Func_shape _ | call_Func_inplace _ | call_Func_perm _ => true
  | call_empty _ | call_copy_ _ _ | call_stack _ => false
  end.

Definition operator_calls (log : list Call) : nat :=
  sum_list_with (λ c, if is_operator_call c then 1%nat else 0%nat) log.

(** A computation leaves the dynamic layer stack as it found it, on
    return and on exception. *)
Definition keeps_layers {T} (m : M T) : Prop :=
  ∀ w, dynamicLayerStack (m w).2 = dynamicLayerStack w.

(** *** Contracts of the external operations

    What the statements about tensor contents assume of the runtime.
    None is used by a rule; each is a hypothesis of the theorem that
    needs it. *)

(** A shape-taking operator returns a tensor of the requested shape. *)
Definition returns_requested_shape {ExtraArgs : Type}
    (Func : list Z → ExtraArgs → Ext tensor) : Prop :=
  ∀ shape extra_args s t s',
    Func shape extra_args s = (Ok t, s') → sizes t = shape.

(** [randperm(n)] returns a fresh one-dimensional tensor holding a
    permutation of [0, n) and disturbs no other tensor. *)
Definition returns_permutation {ExtraArgs : Type}
    (Func : Z → ExtraArgs → Ext tensor) (n : Z) (extra_args : ExtraArgs) : Prop :=
  ∀ s, ∃ t s',
    Func n extra_args s = (Ok t, s') ∧ defined t ∧ sizes t = [n] ∧
    is_permutation_of_range n (row s' t [] n) ∧ preserves s s'.

(** Whenever [randperm(n)] returns, what it returns is one-dimensional
    of size [n] and holds a permutation of [0, n); nothing is asked of a
    call that throws. *)
Definition permutation_when_returned {ExtraArgs : Type}
    (Func : Z → ExtraArgs → Ext tensor) (n : Z) (extra_args : ExtraArgs) : Prop :=
  ∀ s t s',
    Func n extra_args s = (Ok t, s') →
    sizes t = [n] ∧ is_permutation_of_range n (row s' t [] n).

(** [at::empty] returns a tensor of the requested shape. *)
Definition empty_has_size : Prop :=
  ∀ size options s t s', at_empty size options s = (Ok t, s') → sizes t = size.

(** [at::stack] of a non-empty list of defined tensors of one shape
    returns a tensor with a new leading dimension whose [i]-th slice is
    the [i]-th tensor. *)
Definition stack_stacks : Prop :=
  ∀ s ts shape,
    ts ≠ [] → Forall (λ t, defined t ∧ sizes t = shape) ts →
    ∃ r s',
      at_stack ts 0 s = (Ok r, s') ∧ sizes r = Z.of_nat (length ts) :: shape ∧
      ∀ (i : nat) t idx, ts !! i = Some t → read s' r (Z.of_nat i :: idx) = read s t idx.

(** [copy_] into a tensor batched at [bdim] from an unbatched source of
    its logical shape writes the source into every batch slice. *)
Definition copy_broadcasts : Prop :=
  ∀ s value bdim level src r s',
    at_copy_ (batched value bdim level) src false s = (Ok r, s') →
    sizes src = sizes (batched value bdim level) →
    ∀ b idx, 0 ≤ b < size_at value bdim → length idx = length (sizes src) →
      read s' value (insert_at bdim b idx) = read s src idx.

(** [movedim(d, 0)] is a view: element [b :: idx] of the result is the
    element of the argument with [b] at position [d]. *)
Definition movedim_is_view : Prop :=
  ∀ s t d b idx, read s (at_movedim t d 0) (b :: idx) = read s t (insert_at d b idx).

End Rules.

Notation "x <- m ;; k" := (bind m (fun x => k))
  (at level 100, m at next level, right associativity, only parsing).
Notation "m ;;; k" := (bind m (fun _ => k))
  (at level 100, right associativity, only parsing).

(** ** The registrations *)

Inductive BatchRule : Type :=
| RANDOM_BATCH_RULE
| RANDOM_INPLACE_BATCH_RULE
| RANDINT_BATCH_RULE
| RANDINT_LOW_BATCH_RULE
| RANDPERM_BATCH_RULE.

(** The body of [TORCH_LIBRARY_IMPL(aten, FuncTorchVmapMode, m)]. *)
Definition registrations : list (string * BatchRule) :=
  [ ("randn", RANDOM_BATCH_RULE);
    ("randn.generator", RANDOM_BATCH_RULE);
    ("randn.generator_with_names", RANDOM_BATCH_RULE);
    ("randn.names", RANDOM_BATCH_RULE);
    ("rand", RANDOM_BATCH_RULE);
    ("rand.generator", RANDOM_BATCH_RULE);
    ("rand.generator_with_names", RANDOM_BATCH_RULE);
    ("rand.names", RANDOM_BATCH_RULE);
    ("random_", RANDOM_INPLACE_BATCH_RULE);
    ("random_.from", RANDOM_INPLACE_BATCH_RULE);
    ("random_.to", RANDOM_INPLACE_BATCH_RULE);
    ("normal_", RANDOM_INPLACE_BATCH_RULE);
    ("randint", RANDINT_BATCH_RULE);
    ("randint.generator", RANDINT_BATCH_RULE);
    ("randint.low", RANDINT_LOW_BATCH_RULE);
    ("randint.low_generator", RANDINT_LOW_BATCH_RULE);
    ("randperm", RANDPERM_BATCH_RULE);
    ("randperm.generator", RANDPERM_BATCH_RULE) ]%string.

(** The rule an operator name is registered with, if it is. *)
Definition rule_for (op : string) : option BatchRule :=
  snd <$> find (λ entry, String.eqb entry.1 op) registrations.

(** ** A simulated runtime

    A small executable [ATen], on which the rules run.  Storage is a list
    of cells, one per allocation, each a partial map from multi-indices to
    elements; a tensor handle names its cell, its shape and the dimension
    moves of the view it is.  The generator is a counter of the draws made
    so far, and every random operator fills its tensor from the counter,
    so that two successive draws differ. *)
Module Sim.

Record Impl : Type := mkImpl {
  loc : nat;
  dims : list Z;
  moved : list Z
}.

Record St : Type := mkSt {
  draws : Z;
  heap : list (list Z → option Z)
}.

Fixpoint shape_of (t : Tensor Impl) : list Z :=
  match t with
  | undefined_tensor => []
  | plain impl => dims impl
  | batched value bdim _ => delete (Z.to_nat bdim) (shape_of value)
  end.

(** Index of the underlying cell for index [idx] of a view. *)
Fixpoint unmove (ms : list Z) (idx : list Z) : list Z :=
  match ms with
  | [] => idx
  | d :: ms' =>
      unmove ms' (match idx with b :: rest => insert_at d b rest | [] => [] end)
  end.

Definition move_front (d : Z) (l : list Z) : list Z :=
  match l !! Z.to_nat d with
  | Some x => x :: delete (Z.to_nat d) l
  | None => l
  end.

Definition in_bounds (shape idx : list Z) : bool :=
  bool_decide (Forall2 (λ d i, 0 ≤ i < d) shape idx).

Definition encode (idx : list Z) : Z :=
  fold_left (λ acc i, 10 * acc + i) idx 0.

Definition get (s : St) (t : Tensor Impl) (idx : list Z) : option Z :=
  match t with
  | plain impl =>
      match heap s !! loc impl with
      | Some cell => cell (unmove (moved impl) idx)
      | None => None
      end
  | _ => None
  end.

Definition alloc (s : St) (shape : list Z) (cell : list Z → option Z) (draws' : Z)
    : Result (Tensor Impl) * St :=
  (Ok (plain (mkImpl (length (heap s)) shape [])), mkSt draws' (heap s ++ [cell])).

Definition invalid {T} (s : St) (msg : string) : Result T * St :=
  (Throw (c10_Error msg), s).

Definition movedim (t : Tensor Impl) (d dst : Z) : Tensor Impl :=
  match t with
  | plain impl =>
      if bool_decide (dst = 0)
      then plain (mkImpl (loc impl) (move_front d (dims impl)) (d :: moved impl))
      else t
  | _ => t
  end.

Definition empty (size : list Z) (_ : unit) (s : St) : Result (Tensor Impl) * St :=
  if bool_decide (Forall (λ d, 0 ≤ d) size)
  then alloc s size (λ _, None) (draws s)
  else invalid s "negative dimension".

Definition copy_ (self src : Tensor Impl) (_ : bool) (s : St)
    : Result (Tensor Impl) * St :=
  match self with
  | batched (plain v) bdim _ =>
      match heap s !! loc v with
      | Some old =>
          if bool_decide (moved v = [] ∧ 0 ≤ bdim ∧
                          (Z.to_nat bdim ≤ length (shape_of src))%nat)
          then
            let cell idx :=
              match idx !! Z.to_nat bdim with
              | Some b =>
                  if bool_decide (0 ≤ b < default 0 (dims v !! Z.to_nat bdim))
                  then get s src (delete (Z.to_nat bdim) idx)
                  else old idx
              | None => old idx
              end in
            (Ok self, mkSt (draws s) (<[loc v := cell]> (heap s)))
          else invalid s "unsupported layout"
      | None => invalid s "no storage"
      end
  | plain v =>
      match heap s !! loc v with
      | Some old =>
          let cell idx :=
            if in_bounds (unmove (moved v) (dims v)) idx
            then get s src idx else old idx in
          (Ok self, mkSt (draws s) (<[loc v := cell]> (heap s)))
      | None => invalid s "no storage"
      end
  | _ => invalid s "unsupported target"
  end.

Definition stack (tensors : list (Tensor Impl)) (dim : Z) (s : St)
    : Result (Tensor Impl) * St :=
  match tensors with
  | [] => invalid s "stack expects a non-empty TensorList"
  | t0 :: _ =>
      if bool_decide (dim = 0)
      then
        let cell idx :=
          match idx with
          | i :: rest =>
              if bool_decide (0 ≤ i)
              then match tensors !! Z.to_nat i with
                   | Some t => get s t rest
                   | None => None
                   end
              else None
          | [] => None
          end in
        alloc s (Z.of_nat (length tensors) :: shape_of t0) cell (draws s)
      else invalid s "unsupported dim"
  end.

#[global] Instance runtime : ATen := {|
  TensorImpl := Impl;
  TensorOptions := unit;
  State := St;
  impl_sizes := dims;
  at_options := λ _, tt;
  at_movedim := movedim;
  at_empty := empty;
  at_copy_ := copy_;
  at_stack := stack;
  read := get
|}.

(** *** Random operators of the simulated runtime *)

(** The element drawn at index [idx] by draw number [k]. *)
Definition sample (k : Z) (idx : list Z) : Z := 1000 * k + encode idx.

(** [rand(size)]. *)
Definition rand (shape : list Z) (_ : unit) (s : St) : Result (Tensor Impl) * St :=
  if bool_decide (Forall (λ d, 0 ≤ d) shape)
  then alloc s shape
         (λ idx, if in_bounds shape idx then Some (sample (draws s) idx) else None)
         (draws s + 1)
  else invalid s "negative dimension".

(** [randint(high, size)]. *)
Definition randint (high : Z) (shape : list Z) (_ : unit) (s : St)
    : Result (Tensor Impl) * St :=
  if bool_decide (0 < high ∧ Forall (λ d, 0 ≤ d) shape)
  then alloc s shape
         (λ idx, if in_bounds shape idx
                 then Some (sample (draws s) idx mod high) else None)
         (draws s + 1)
  else invalid s "invalid arguments".

(** [randint.low(low, high, size)]. *)
Definition randint_low (low high : Z) (shape : list Z) (_ : unit) (s : St)
    : Result (Tensor Impl) * St :=
  if bool_decide (low < high ∧ Forall (λ d, 0 ≤ d) shape)
  then alloc s shape
         (λ idx, if in_bounds shape idx
                 then Some (low + sample (draws s) idx mod (high - low)) else None)
         (draws s + 1)
  else invalid s "invalid arguments".

(** [random_(self)]. *)
Definition random_ (self : Tensor Impl) (_ : unit) (s : St)
    : Result (Tensor Impl) * St :=
  match self with
  | plain v =>
      match heap s !! loc v with
      | Some old =>
          let cell idx :=
            if in_bounds (unmove (moved v) (dims v)) idx
            then Some (sample (draws s) idx) else old idx in
          (Ok self, mkSt (draws s + 1) (<[loc v := cell]> (heap s)))
      | None => invalid s "no storage"
      end
  | _ => invalid s "unsupported target"
  end.

(** [randperm(n)]: the identity rotated by the number of the draw. *)
Definition permutation (n k : Z) : list Z :=
  rotate (Z.to_nat k) (seqZ 0 n).

Definition randperm (n : Z) (_ : unit) (s : St) : Result (Tensor Impl) * St :=
  if bool_decide (0 ≤ n)
  then alloc s [n]
         (λ idx, match idx with
                 | [j] => if bool_decide (0 ≤ j)
                          then permutation n (draws s) !! Z.to_nat j else None
                 | _ => None
                 end)
         (draws s + 1)
  else invalid s "n must be non-negative".

(** A [randperm] whose generator fails on its second draw. *)
Definition flaky_randperm (n : Z) (u : unit) (s : St) : Result (Tensor Impl) * St :=
  if bool_decide (draws s = 1) then invalid s "generator failure"
  else randperm n u s.

(** A [random_] whose generator always fails. *)
Definition failing_random_ (self : Tensor Impl) (_ : unit) (s : St)
    : Result (Tensor Impl) * St :=
  invalid s "generator failure".

(** A world with one layer and nothing allocated. *)
Definition world (batch_size level : Z) (mode : RandomnessType) : World :=
  mkWorld [mkLayer batch_size level mode] false (mkSt 0 []) [].

(** The same with a [rows] by [cols] tensor of zeros in cell 0. *)
Definition world_with_target (batch_size level : Z) (mode : RandomnessType)
    (rows cols : Z) : World :=
  mkWorld [mkLayer batch_size level mode] false
          (mkSt 0 [λ idx, if in_bounds [rows; cols] idx then Some 0 else None]) [].

Definition target (rows cols : Z) : Tensor Impl := plain (mkImpl 0 [rows; cols] []).

End Sim.

(** * Properties of the rules *)

Section Properties.
Context `{A : ATen}.

(** Unfolds a rule down to the external calls it makes. *)
Ltac run :=
  unfold RandomBatchRuleHelper_apply, RandIntBatchRuleHelper_apply,
    RandIntLowBatchRuleHelper_apply, RandomInplaceBatchRuleHelper_apply,
    RandpermBatchRuleHelper_apply, random_batching_rule,
    random_inplace_batching_rule, randperm_batching_rule,
    ExcludeDispatchKeyGuard, maybeCurrentDynamicLayer, check_randomness,
    TORCH_CHECK, new_stackedList, bind, deref, invoke, ret, throw,
    outcome, after_call, makeBatched;
  simpl.

(** ** The shape rule *)

(** Under a layer whose mode is not [Error], the shape rule makes one
    call of its operator, in the state it was entered in: with the batch
    size put in front of the shape and the result wrapped under
    [Different], with the shape as it came and the result as it is
    otherwise. *)
Lemma random_batching_rule_run {ExtraArgs : Type}
    (Func : list Z → ExtraArgs → Ext tensor) shape extra_args w layer :
  last (dynamicLayerStack w) = Some layer →
  randomness layer ≠ Error →
  random_batching_rule Func shape extra_args w =
    if bool_decide (randomness layer = Different)
    then outcome (λ t, batched t 0 (layerId layer))
           (call_Func_shape ([batchSize layer] ++ shape))
           (Func ([batchSize layer] ++ shape) extra_args (aten w)) w
    else outcome id (call_Func_shape shape) (Func shape extra_args (aten w)) w.
Proof.
  intros Hlayer Hmode. destruct w as [stack tls s log]. simpl in Hlayer.
  run. rewrite Hlayer. simpl.
  destruct (randomness layer) eqn:Hr; try congruence; simpl.
  - destruct (Func shape extra_args s) as [[t|e] s']; reflexivity.
  - destruct (Func (batchSize layer :: shape) extra_args s) as [[t|e] s']; reflexivity.
Qed.

(** Under a layer in mode [Error] a computation that starts with the
    layer lookup and the check stops there, the world as it was. *)
Lemma random_batching_rule_error {ExtraArgs : Type}
    (Func : list Z → ExtraArgs → Ext tensor) shape extra_args w layer :
  last (dynamicLayerStack w) = Some layer →
  randomness layer = Error →
  random_batching_rule Func shape extra_args w = (Throw RandomnessModeError, w).
Proof.
  intros Hlayer Hmode. destruct w as [stack tls s log]. simpl in Hlayer.
  run. rewrite Hlayer. simpl. rewrite Hmode. reflexivity.
Qed.

Lemma random_inplace_batching_rule_error {ExtraArgs : Type}
    (Func : tensor → ExtraArgs → Ext tensor) self extra_args w layer :
  last (dynamicLayerStack w) = Some layer →
  randomness layer = Error →
  random_inplace_batching_rule Func self extra_args w = (Throw RandomnessModeError, w).
Proof.
  intros Hlayer Hmode. destruct w as [stack tls s log]. simpl in Hlayer.
  run. rewrite Hlayer. simpl.
  destruct (unwrapTensorAtLevel self (layerId layer)) as [value bdim].
  simpl. rewrite Hmode. reflexivity.
Qed.

Lemma randperm_batching_rule_error {ExtraArgs : Type}
    (Func : Z → ExtraArgs → Ext tensor) n extra_args w layer :
  last (dynamicLayerStack w) = Some layer →
  randomness layer = Error →
  randperm_batching_rule Func n extra_args w = (Throw RandomnessModeError, w).
Proof.
  intros Hlayer Hmode. destruct w as [stack tls s log]. simpl in Hlayer.
  run. rewrite Hlayer. simpl. rewrite Hmode. reflexivity.
Qed.

(** C1: under mode [Different] every shape-taking helper ([randn] and
    [rand], [randint], [randint.low]) calls its real operator once, with
    the shape [[batchSize] ++ shape] and the other arguments as they
    came, and returns the result wrapped as a batched tensor at
    dimension 0 of the layer's level; an exception of the operator
    leaves the rule as it is. *)
Theorem different_puts_batch_size_in_front {ExtraArgs : Type}
    (Func : list Z → ExtraArgs → Ext tensor)
    (FuncInt : Z → list Z → ExtraArgs → Ext tensor)
    (FuncLow : Z → Z → list Z → ExtraArgs → Ext tensor)
    (high low : Z) (shape : list Z) (extra_args : ExtraArgs) (w : World)
    (layer : DynamicLayer) :
  last (dynamicLayerStack w) = Some layer →
  randomness layer = Different →
  let shapeVec := [batchSize layer] ++ shape in
  let wrapped t := batched t 0 (layerId layer) in
  RandomBatchRuleHelper_apply Func shape extra_args w =
    outcome wrapped (call_Func_shape shapeVec)
            (Func shapeVec extra_args (aten w)) w
  ∧ RandIntBatchRuleHelper_apply FuncInt high shape extra_args w =
    outcome wrapped (call_Func_shape shapeVec)
            (FuncInt high shapeVec extra_args (aten w)) w
  ∧ RandIntLowBatchRuleHelper_apply FuncLow high low shape extra_args w =
    outcome wrapped (call_Func_shape shapeVec)
            (FuncLow high low shapeVec extra_args (aten w)) w.
Proof.
  intros Hlayer Hmode shapeVec wrapped.
  unfold RandomBatchRuleHelper_apply, RandIntBatchRuleHelper_apply,
    RandIntLowBatchRuleHelper_apply.
  rewrite !(random_batching_rule_run _ _ _ _ layer) by congruence.
  rewrite Hmode. simpl. auto.
Qed.

(** C6: under mode [Same] every shape-taking helper calls its real
    operator once, with the shape and the other arguments as they came,
    and returns what the operator returned, unwrapped; when the operator
    returns tensors of the shape it is asked for, the result has exactly
    the requested shape. *)
Theorem same_draws_once_unbatched {ExtraArgs : Type}
    (Func : list Z → ExtraArgs → Ext tensor)
    (FuncInt : Z → list Z → ExtraArgs → Ext tensor)
    (FuncLow : Z → Z → list Z → ExtraArgs → Ext tensor)
    (high low : Z) (shape : list Z) (extra_args : ExtraArgs) (w : World)
    (layer : DynamicLayer) :
  last (dynamicLayerStack w) = Some layer →
  randomness layer = Same →
  returns_requested_shape Func →
  returns_requested_shape (rand_int_wrapper FuncInt) →
  returns_requested_shape (rand_int_low_wrapper FuncLow) →
  (RandomBatchRuleHelper_apply Func shape extra_args w =
     outcome id (call_Func_shape shape) (Func shape extra_args (aten w)) w
   ∧ RandIntBatchRuleHelper_apply FuncInt high shape extra_args w =
     outcome id (call_Func_shape shape) (FuncInt high shape extra_args (aten w)) w
   ∧ RandIntLowBatchRuleHelper_apply FuncLow high low shape extra_args w =
     outcome id (call_Func_shape shape)
             (FuncLow high low shape extra_args (aten w)) w)
  ∧ ∀ t w',
      RandomBatchRuleHelper_apply Func shape extra_args w = (Ok t, w') ∨
      RandIntBatchRuleHelper_apply FuncInt high shape extra_args w = (Ok t, w') ∨
      RandIntLowBatchRuleHelper_apply FuncLow high low shape extra_args w = (Ok t, w') →
      sizes t = shape.
Proof.
  intros Hlayer Hmode HF HI HL.
  unfold RandomBatchRuleHelper_apply, RandIntBatchRuleHelper_apply,
    RandIntLowBatchRuleHelper_apply.
  rewrite !(random_batching_rule_run _ _ _ _ layer) by congruence.
  rewrite Hmode. simpl. split; [auto|].
  unfold outcome. intros t w' [H|[H|H]].
  - destruct (Func shape extra_args (aten w)) as [[t0|e] s'] eqn:E;
      simpl in H; inversion H; subst. eapply HF, E.
  - destruct (FuncInt high shape extra_args (aten w)) as [[t0|e] s'] eqn:E;
      simpl in H; inversion H; subst.
    apply (HI shape (high, extra_args) (aten w) t s'). exact E.
  - destruct (FuncLow high low shape extra_args (aten w)) as [[t0|e] s'] eqn:E;
      simpl in H; inversion H; subst.
    apply (HL shape (high, low, extra_args) (aten w) t s'). exact E.
Qed.

(** C8: the two adapters only forward.  Whatever the mode, [randint]
    reaches its operator as [(high, shape', extra)] and [randint.low] as
    [(first bound, second bound, shape', extra)], the bounds those of the
    caller in the caller's order, where [shape'] is the requested shape,
    with the batch size in front under [Different]. *)
Theorem randint_adapters_forward {ExtraArgs : Type}
    (FuncInt : Z → list Z → ExtraArgs → Ext tensor)
    (FuncLow : Z → Z → list Z → ExtraArgs → Ext tensor)
    (high low : Z) (shape : list Z) (extra_args : ExtraArgs) (w : World)
    (layer : DynamicLayer) :
  last (dynamicLayerStack w) = Some layer →
  randomness layer ≠ Error →
  let shape' :=
    if bool_decide (randomness layer = Different)
    then [batchSize layer] ++ shape else shape in
  let back t :=
    if bool_decide (randomness layer = Different)
    then batched t 0 (layerId layer) else t in
  (∀ s, rand_int_wrapper FuncInt shape' (high, extra_args) s =
        FuncInt high shape' extra_args s)
  ∧ (∀ s, rand_int_low_wrapper FuncLow shape' (high, low, extra_args) s =
          FuncLow high low shape' extra_args s)
  ∧ RandIntBatchRuleHelper_apply FuncInt high shape extra_args w =
    outcome back (call_Func_shape shape')
            (FuncInt high shape' extra_args (aten w)) w
  ∧ RandIntLowBatchRuleHelper_apply FuncLow high low shape extra_args w =
    outcome back (call_Func_shape shape')
            (FuncLow high low shape' extra_args (aten w)) w.
Proof.
  intros Hlayer Hmode shape' back.
  unfold RandIntBatchRuleHelper_apply, RandIntLowBatchRuleHelper_apply.
  rewrite !(random_batching_rule_run _ _ _ _ layer) by congruence.
  subst shape' back.
  destruct (bool_decide (randomness layer = Different)); simpl; auto.
Qed.

(** ** The in-place rule *)

Lemma unwrapTensorAtLevel_Some self level value bdim :
  unwrapTensorAtLevel self level = (value, Some bdim) →
  self = batched value bdim level.
Proof.
  destruct self as [|impl|v d l]; simpl; try congruence.
  case_bool_decide; intros Heq; inversion Heq; subst; reflexivity.
Qed.

Lemma unwrapTensorAtLevel_None self level :
  (unwrapTensorAtLevel self level).2 = None →
  (unwrapTensorAtLevel self level).1 = self.
Proof.
  destruct self as [|impl|v d l]; simpl; try reflexivity.
  case_bool_decide; simpl; [discriminate | reflexivity].
Qed.

(** C4: under mode [Different] a target that carries no batch dimension
    at the current level makes the in-place rule throw the second check's
    error, nothing having been called (no operator, no allocation) and
    the ATen state, so the target, as it was. *)
Theorem different_inplace_on_unbatched_aborts {ExtraArgs : Type}
    (Func : tensor → ExtraArgs → Ext tensor)
    (self : tensor) (extra_args : ExtraArgs) (w : World) (layer : DynamicLayer) :
  last (dynamicLayerStack w) = Some layer →
  randomness layer = Different →
  (unwrapTensorAtLevel self (layerId layer)).2 = None →
  RandomInplaceBatchRuleHelper_apply Func self extra_args w =
    (Throw UnsupportedInplaceRandomnessError, w).
Proof.
  intros Hlayer Hmode Hbdim. destruct w as [stack tls s log]. simpl in Hlayer.
  run. rewrite Hlayer. simpl.
  destruct (unwrapTensorAtLevel self (layerId layer)) as [value bdim].
  simpl in Hbdim. subst bdim. simpl. rewrite Hmode. reflexivity.
Qed.

(** C7: in the two remaining cases ([Same] on a target without batch
    dimension at the level, [Different] on a target with one) the
    in-place rule calls the real operator once, on the unwrapped value
    with its batch dimension moved to the front, and returns the handle
    it was given; an exception of the operator leaves the rule as it is.
    Without a batch dimension the value operated on is the target. *)
Theorem inplace_draws_on_unwrapped_value {ExtraArgs : Type}
    (Func : tensor → ExtraArgs → Ext tensor)
    (self : tensor) (extra_args : ExtraArgs) (w : World) (layer : DynamicLayer) :
  last (dynamicLayerStack w) = Some layer →
  let unwrapped := unwrapTensorAtLevel self (layerId layer) in
  (randomness layer = Same ∧ unwrapped.2 = None) ∨
  (randomness layer = Different ∧ unwrapped.2 ≠ None) →
  let self_value := moveBatchDimToFront unwrapped.1 unwrapped.2 in
  RandomInplaceBatchRuleHelper_apply Func self extra_args w =
    outcome (λ _, self) (call_Func_inplace self_value)
            (Func self_value extra_args (aten w)) w
  ∧ (unwrapped.2 = None → self_value = self).
Proof.
  intros Hlayer unwrapped Hcase self_value. split.
  - destruct w as [stack tls s log]. simpl in Hlayer.
    run. rewrite Hlayer. simpl. subst self_value unwrapped.
    destruct (unwrapTensorAtLevel self (layerId layer)) as [value bdim].
    simpl in *.
    destruct Hcase as [[Hmode Hbdim]|[Hmode Hbdim]]; rewrite Hmode; simpl.
    + subst bdim. simpl.
      destruct (Func value extra_args s) as [[t|e] s']; reflexivity.
    + destruct bdim as [d|]; [|congruence]. simpl.
      destruct (Func _ extra_args s) as [[t|e] s']; reflexivity.
  - intros Hnone. subst self_value.
    rewrite Hnone. simpl. apply unwrapTensorAtLevel_None, Hnone.
Qed.

(** Under mode [Same] on a target batched at the level the in-place rule
    is the sequence: allocate a tensor of the target's logical shape,
    call the operator on it, copy it into the target, return the
    target. *)
Lemma inplace_same_batched_run {ExtraArgs : Type}
    (Func : tensor → ExtraArgs → Ext tensor) self extra_args w layer value bdim :
  last (dynamicLayerStack w) = Some layer →
  randomness layer = Same →
  unwrapTensorAtLevel self (layerId layer) = (value, Some bdim) →
  random_inplace_batching_rule Func self extra_args w =
    (intermediate <- invoke (call_empty (sizes self))
                            (at_empty (sizes self) (at_options self)) ;;
     invoke (call_Func_inplace intermediate) (Func intermediate extra_args) ;;;
     invoke (call_copy_ self intermediate) (at_copy_ self intermediate false) ;;;
     ret self) w.
Proof.
  intros Hlayer Hmode Hunwrap. destruct w as [stack tls s log]. simpl in Hlayer.
  run. rewrite Hlayer. simpl. rewrite Hunwrap. simpl. rewrite Hmode. simpl.
  destruct (at_empty _ _ s) as [[i|e] s1]; [|reflexivity]. simpl.
  destruct (Func i extra_args s1) as [[r2|e] s2]; [|reflexivity]. simpl.
  destruct (at_copy_ self i false s2) as [[r3|e] s3]; reflexivity.
Qed.

Lemma insert_at_0 b idx : insert_at 0 b idx = b :: idx.
Proof. unfold insert_at. simpl. rewrite drop_0. reflexivity. Qed.

(** C3: under mode [Same] on a target batched at the current level, when
    the three external calls return, the in-place rule has allocated one
    scratch tensor of the target's logical shape, called the real
    operator once, on the scratch, copied the scratch into the target,
    and returns the handle it was given.  With [copy_] broadcasting over
    the batch dimension, each of the [batchSize] slices along dimension 0
    of the target's value (batch dimension in front) then holds the
    elements drawn into the scratch, so any two slices are equal. *)
Theorem same_inplace_on_batched_broadcasts_one_draw {ExtraArgs : Type}
    (Func : tensor → ExtraArgs → Ext tensor)
    (self : tensor) (extra_args : ExtraArgs) (w : World) (layer : DynamicLayer)
    (value : tensor) (bdim : Z)
    (intermediate r2 r3 : tensor) (s1 s2 s3 : State) :
  last (dynamicLayerStack w) = Some layer →
  randomness layer = Same →
  unwrapTensorAtLevel self (layerId layer) = (value, Some bdim) →
  size_at value bdim = batchSize layer →
  empty_has_size → copy_broadcasts → movedim_is_view →
  at_empty (sizes self) (at_options self) (aten w) = (Ok intermediate, s1) →
  Func intermediate extra_args s1 = (Ok r2, s2) →
  at_copy_ self intermediate false s2 = (Ok r3, s3) →
  let front := moveBatchDimToFront value (Some bdim) in
  RandomInplaceBatchRuleHelper_apply Func self extra_args w =
    (Ok self,
     mkWorld (dynamicLayerStack w) (tls_excluded w) s3
       (calls w ++ [call_empty (sizes self);
                    call_Func_inplace intermediate;
                    call_copy_ self intermediate]))
  ∧ sizes intermediate = sizes self
  ∧ (∀ b idx, 0 ≤ b < batchSize layer → length idx = length (sizes self) →
       read s3 front (b :: idx) = read s2 intermediate idx)
  ∧ (∀ b1 b2 idx,
       0 ≤ b1 < batchSize layer → 0 ≤ b2 < batchSize layer →
       length idx = length (sizes self) →
       read s3 front (b1 :: idx) = read s3 front (b2 :: idx)).
Proof.
  intros Hlayer Hmode Hunwrap Hbatch Hempty Hcopy Hview E1 E2 E3 front.
  assert (Hsize : sizes intermediate = sizes self) by (eapply Hempty, E1).
  assert (Hslice : ∀ b idx, 0 ≤ b < batchSize layer →
            length idx = length (sizes self) →
            read s3 front (b :: idx) = read s2 intermediate idx).
  { intros b idx Hb Hlen.
    pose proof (unwrapTensorAtLevel_Some _ _ _ _ Hunwrap) as Hself.
    rewrite Hself in E3, Hsize.
    rewrite <- Hbatch in Hb.
    assert (Hlen' : length idx = length (sizes intermediate))
      by (rewrite Hsize, <- Hself; exact Hlen).
    pose proof (Hcopy _ _ _ _ _ _ _ E3 Hsize b idx Hb Hlen') as Hread.
    subst front. unfold moveBatchDimToFront. case_bool_decide as Hd.
    - subst bdim. rewrite insert_at_0 in Hread. exact Hread.
    - rewrite Hview. exact Hread. }
  split; [|split; [exact Hsize|split; [exact Hslice|]]].
  - unfold RandomInplaceBatchRuleHelper_apply.
    rewrite (inplace_same_batched_run _ _ _ _ layer value bdim) by assumption.
    unfold bind, invoke, ret. simpl. rewrite E1. simpl. rewrite E2. simpl.
    rewrite E3. simpl. rewrite <- !app_assoc. reflexivity.
  - intros b1 b2 idx Hb1 Hb2 Hlen.
    rewrite (Hslice b1), (Hslice b2) by assumption. reflexivity.
Qed.

(** ** The permutation rule *)

Lemma sequential_draws_length {ExtraArgs : Type}
    (Func : Z → ExtraArgs → Ext tensor) n extra_args count :
  ∀ s ts s',
    sequential_draws Func n extra_args count s = (Ok ts, s') → length ts = count.
Proof.
  induction count as [|count IH]; intros s ts s' H; simpl in H.
  - inversion H. reflexivity.
  - destruct (Func n extra_args s) as [[t|e] s1]; [|discriminate].
    destruct (sequential_draws Func n extra_args count s1) as [[ts'|e] s2] eqn:E;
      inversion H; subst.
    simpl. f_equal. eapply IH, E.
Qed.

(** The loop of the source, which assigns the draws by index into a
    vector allocated beforehand, collects what [sequential_draws]
    collects: after [remaining] iterations from index [idx] the vector
    holds the draws, in order, at positions [idx], [idx + 1], ..., and
    one call per iteration has been logged. *)
Lemma randperm_loop_collects {ExtraArgs : Type}
    (Func : Z → ExtraArgs → Ext tensor) n extra_args remaining :
  ∀ idx stackedList w ts s',
    sequential_draws Func n extra_args remaining (aten w) = (Ok ts, s') →
    (idx + remaining ≤ length stackedList)%nat →
    randperm_loop Func n extra_args remaining idx stackedList w =
      (Ok (take idx stackedList ++ ts ++ drop (idx + remaining) stackedList),
       mkWorld (dynamicLayerStack w) (tls_excluded w) s'
               (calls w ++ replicate remaining (call_Func_perm n))).
Proof.
  induction remaining as [|k IH]; intros idx l w ts s' H Hlen; simpl in H.
  - inversion H; subst. destruct w as [stack tls s log]. simpl. unfold ret.
    rewrite Nat.add_0_r, take_drop, app_nil_r. reflexivity.
  - destruct (Func n extra_args (aten w)) as [[t|e] s1] eqn:E1; [|discriminate].
    destruct (sequential_draws Func n extra_args k s1) as [[ts'|e] s2] eqn:E2;
      inversion H; subst.
    simpl. unfold bind, invoke. rewrite E1.
    rewrite (IH (S idx) (<[idx:=t]> l) _ ts' s'); simpl.
    + f_equal; [f_equal|].
      * assert (Hidx : (idx < length l)%nat) by lia.
        rewrite (take_S_r _ _ t) by (apply list_lookup_insert_eq; exact Hidx).
        rewrite take_insert_ge by lia.
        rewrite drop_insert_lt by lia.
        rewrite <- app_assoc. simpl.
        replace (S (idx + k)) with (idx + S k)%nat by lia. reflexivity.
      * rewrite <- app_assoc. reflexivity.
    + exact E2.
    + rewrite length_insert. lia.
Qed.

(** Under mode [Different], with a batch size a vector can have and
    draws that all return, the permutation rule makes the draws one after
    the other and then one call of [at::stack] on them, and wraps what
    [at::stack] returns. *)
Lemma randperm_different_run {ExtraArgs : Type}
    (Func : Z → ExtraArgs → Ext tensor) n extra_args w layer ts s' :
  last (dynamicLayerStack w) = Some layer →
  randomness layer = Different →
  0 ≤ batchSize layer ≤ vector_max_size →
  sequential_draws Func n extra_args (Z.to_nat (batchSize layer)) (aten w) = (Ok ts, s') →
  randperm_batching_rule Func n extra_args w =
    outcome (λ t, batched t 0 (layerId layer)) (call_stack ts) (at_stack ts 0 s')
      (mkWorld (dynamicLayerStack w) (tls_excluded w) s'
         (calls w ++ replicate (Z.to_nat (batchSize layer)) (call_Func_perm n))).
Proof.
  intros Hlayer Hmode Hsize Hdraws. destruct w as [stack tls s log].
  simpl in Hlayer, Hdraws.
  run. rewrite Hlayer. simpl. rewrite Hmode. simpl.
  destruct (Z.ltb_spec (batchSize layer) 0) as [?|_]; [lia|].
  destruct (Z.ltb_spec vector_max_size (batchSize layer)) as [?|_]; [lia|].
  simpl.
  rewrite (randperm_loop_collects Func n extra_args _ 0%nat _ _ ts s');
    [| exact Hdraws | rewrite length_replicate; lia].
  simpl. rewrite drop_replicate, Nat.sub_diag, app_nil_r. simpl.
  destruct (at_stack ts 0 s') as [[r|e] s'']; reflexivity.
Qed.

(** Under mode [Same] the permutation rule makes one call and returns
    its result. *)
Lemma randperm_same_run {ExtraArgs : Type}
    (Func : Z → ExtraArgs → Ext tensor) n extra_args w layer :
  last (dynamicLayerStack w) = Some layer →
  randomness layer = Same →
  randperm_batching_rule Func n extra_args w =
    outcome id (call_Func_perm n) (Func n extra_args (aten w)) w.
Proof.
  intros Hlayer Hmode. destruct w as [stack tls s log]. simpl in Hlayer.
  run. rewrite Hlayer. simpl. rewrite Hmode. simpl.
  destruct (Func n extra_args s) as [[t|e] s']; reflexivity.
Qed.

Lemma preserves_refl s : preserves s s.
Proof. intros t idx v H. exact H. Qed.

Lemma preserves_trans s1 s2 s3 :
  preserves s1 s2 → preserves s2 s3 → preserves s1 s3.
Proof. intros H12 H23 t idx v H. apply H23, H12, H. Qed.

(** A row that holds a permutation is all readable, so a call that
    preserves what is readable preserves the row. *)
Lemma row_preserved s s' t prefix n :
  preserves s s' →
  is_permutation_of_range n (row s t prefix n) →
  row s' t prefix n = row s t prefix n.
Proof.
  intros Hpres Hperm. unfold row. apply list_fmap_ext.
  intros i j Hj.
  assert (Hin : read s t (prefix ++ [j]) ∈ row s t prefix n).
  { unfold row. apply list_elem_of_fmap. exists j. split; [reflexivity|].
    eapply list_elem_of_lookup_2, Hj. }
  unfold is_permutation_of_range in Hperm. rewrite Hperm in Hin.
  apply list_elem_of_fmap in Hin as (v & Hv & _).
  rewrite Hv. apply Hpres. exact Hv.
Qed.

(** With an operator that keeps the contract of [randperm], any number of
    successive draws return, each a tensor of shape [[n]] that holds a
    permutation, still so in the state the last draw leaves. *)
Lemma sequential_draws_permutations {ExtraArgs : Type}
    (Func : Z → ExtraArgs → Ext tensor) n extra_args :
  returns_permutation Func n extra_args →
  ∀ count s, ∃ ts s',
    sequential_draws Func n extra_args count s = (Ok ts, s')
    ∧ preserves s s'
    ∧ Forall (λ t, (defined t ∧ sizes t = [n])
                   ∧ is_permutation_of_range n (row s' t [] n)) ts.
Proof.
  intros Hperm. induction count as [|count IH]; intros s.
  - exists [], s. simpl. split; [reflexivity|]. split; [apply preserves_refl|].
    constructor.
  - destruct (Hperm s) as (t & s1 & E1 & Hdef & Hsz & Hrow & Hpres1).
    destruct (IH s1) as (ts & s' & E2 & Hpres2 & Hall).
    exists (t :: ts), s'. simpl. rewrite E1, E2.
    split; [reflexivity|]. split; [eapply preserves_trans; eassumption|].
    constructor; [|exact Hall].
    split; [split; assumption|].
    unfold is_permutation_of_range.
    rewrite (row_preserved s1 s') by assumption. exact Hrow.
Qed.

(** X12: under mode [Different] with a batch size [B] of at least one
    and at most the largest size of a vector, an operator that keeps the
    contract of [randperm] and an [at::stack] that keeps its own, the
    permutation rule calls the real operator exactly [B] times, one call after the
    other, each from the state the previous one left
    ([sequential_draws]), calls [at::stack] once on the [B] results in
    the order drawn, and returns its result wrapped as a batched tensor
    at dimension 0 of the layer's level; that result has shape [[B; n]],
    its row [i] is the [i]-th draw, and every row is a permutation of
    [0, n). *)
Theorem randperm_different_stacks_draws {ExtraArgs : Type}
    (Func : Z → ExtraArgs → Ext tensor)
    (n : Z) (extra_args : ExtraArgs) (w : World) (layer : DynamicLayer) :
  last (dynamicLayerStack w) = Some layer →
  randomness layer = Different →
  1 ≤ batchSize layer ≤ vector_max_size →
  returns_permutation Func n extra_args →
  stack_stacks →
  ∃ ts s_drawn r s_final,
    sequential_draws Func n extra_args (Z.to_nat (batchSize layer)) (aten w)
      = (Ok ts, s_drawn)
    ∧ Z.of_nat (length ts) = batchSize layer
    ∧ at_stack ts 0 s_drawn = (Ok r, s_final)
    ∧ RandpermBatchRuleHelper_apply Func n extra_args w =
        (Ok (batched r 0 (layerId layer)),
         mkWorld (dynamicLayerStack w) (tls_excluded w) s_final
           (calls w ++ replicate (Z.to_nat (batchSize layer)) (call_Func_perm n)
                   ++ [call_stack ts]))
    ∧ sizes r = [batchSize layer; n]
    ∧ (∀ (i : nat) t, ts !! i = Some t →
         row s_final r [Z.of_nat i] n = row s_drawn t [] n)
    ∧ (∀ i, 0 ≤ i < batchSize layer →
         is_permutation_of_range n (row s_final r [i] n)).
Proof.
  intros Hlayer Hmode Hsize Hperm Hstack.
  destruct (sequential_draws_permutations Func n extra_args Hperm
              (Z.to_nat (batchSize layer)) (aten w))
    as (ts & s_drawn & Hdraws & _ & Hall).
  pose proof (sequential_draws_length _ _ _ _ _ _ _ Hdraws) as Hlen.
  assert (Hne : ts ≠ []) by (intros ->; simpl in Hlen; lia).
  destruct (Hstack s_drawn ts [n] Hne) as (r & s_final & Est & Hshape & Hrows).
  { eapply Forall_impl; [exact Hall|]. intros t [Ht _]. exact Ht. }
  assert (Hrow : ∀ (i : nat) t, ts !! i = Some t →
            row s_final r [Z.of_nat i] n = row s_drawn t [] n).
  { intros i t Hi. unfold row. apply list_fmap_ext. intros _ j _.
    simpl. apply Hrows. exact Hi. }
  exists ts, s_drawn, r, s_final.
  split; [exact Hdraws|]. split; [lia|]. split; [exact Est|].
  split; [|split; [|split; [exact Hrow|]]].
  - unfold RandpermBatchRuleHelper_apply.
    rewrite (randperm_different_run Func n extra_args w layer ts s_drawn)
      by (assumption || lia).
    unfold outcome, after_call. rewrite Est. simpl.
    rewrite <- app_assoc. reflexivity.
  - rewrite Hshape. f_equal. lia.
  - intros i Hi.
    destruct (lookup_lt_is_Some_2 ts (Z.to_nat i)) as [t Ht]; [lia|].
    replace i with (Z.of_nat (Z.to_nat i)) by lia.
    unfold is_permutation_of_range. rewrite (Hrow _ t Ht).
    rewrite Forall_forall in Hall.
    apply (Hall t). eapply list_elem_of_lookup_2, Ht.
Qed.

(** Whatever the runtime, with an empty batch the result of the
    permutation rule under [Different] is the same for every [n]: no call
    is made that sees [n]. *)
Lemma randperm_empty_batch_ignores_n {ExtraArgs : Type}
    (Func : Z → ExtraArgs → Ext tensor) n n' extra_args w layer :
  last (dynamicLayerStack w) = Some layer →
  randomness layer = Different →
  batchSize layer = 0 →
  randperm_batching_rule Func n extra_args w =
  randperm_batching_rule Func n' extra_args w.
Proof.
  intros Hlayer Hmode Hsize.
  rewrite !(randperm_different_run Func _ extra_args w layer [] (aten w));
    try assumption; try (unfold vector_max_size; lia);
    rewrite Hsize; reflexivity.
Qed.

(** C10: under mode [Different] with [batchSize = 0] the permutation rule
    makes no call of the real operator; its one external call is
    [at::stack] on the empty list, in the state the rule was entered in,
    and its outcome is that call's: the exception if [at::stack] throws,
    its result wrapped if it returns.  In particular the outcome is the
    same for every [n]. *)
Theorem randperm_empty_batch_defers_to_stack {ExtraArgs : Type}
    (Func : Z → ExtraArgs → Ext tensor)
    (n : Z) (extra_args : ExtraArgs) (w : World) (layer : DynamicLayer) :
  last (dynamicLayerStack w) = Some layer →
  randomness layer = Different →
  batchSize layer = 0 →
  RandpermBatchRuleHelper_apply Func n extra_args w =
    outcome (λ t, batched t 0 (layerId layer)) (call_stack [])
            (at_stack [] 0 (aten w)) w
  ∧ calls (RandpermBatchRuleHelper_apply Func n extra_args w).2 =
    calls w ++ [call_stack []]
  ∧ (∀ e s', at_stack [] 0 (aten w) = (Throw e, s') →
       (RandpermBatchRuleHelper_apply Func n extra_args w).1 = Throw e)
  ∧ (∀ r s', at_stack [] 0 (aten w) = (Ok r, s') →
       (RandpermBatchRuleHelper_apply Func n extra_args w).1 =
       Ok (batched r 0 (layerId layer)))
  ∧ (∀ n', RandpermBatchRuleHelper_apply Func n' extra_args w =
           RandpermBatchRuleHelper_apply Func n extra_args w).
Proof.
  intros Hlayer Hmode Hsize.
  assert (Hrun : RandpermBatchRuleHelper_apply Func n extra_args w =
            outcome (λ t, batched t 0 (layerId layer)) (call_stack [])
                    (at_stack [] 0 (aten w)) w).
  { unfold RandpermBatchRuleHelper_apply.
    rewrite (randperm_different_run Func n extra_args w layer [] (aten w));
      try assumption; try (unfold vector_max_size; lia);
      [|rewrite Hsize; reflexivity].
    rewrite Hsize. simpl. rewrite app_nil_r.
    destruct w as [stack tls s log]. reflexivity. }
  assert (Hn : ∀ n', RandpermBatchRuleHelper_apply Func n' extra_args w =
                     RandpermBatchRuleHelper_apply Func n extra_args w).
  { intros n'.
    apply (randperm_empty_batch_ignores_n Func n' n extra_args w layer);
      assumption. }
  split; [exact Hrun|]. rewrite Hrun. unfold outcome, after_call. simpl.
  split; [reflexivity|].
  split; [intros e s' E; rewrite E; reflexivity|].
  split; [intros r s' E; rewrite E; reflexivity|].
  intros n'. rewrite Hn, Hrun. reflexivity.
Qed.

(** ** The error mode *)

(** C2: under a layer in mode [Error] each of the five registered
    helpers (shape, [randint], [randint.low], in-place, permutation)
    throws the error of [check_randomness] and leaves the world as it
    found it: no external call is logged and the ATen state, so every
    generator and tensor, is untouched.  [check_randomness] itself throws
    on [Error] and does nothing on [Same] and [Different]. *)
Theorem error_mode_aborts_before_any_call (w : World) (layer : DynamicLayer) :
  last (dynamicLayerStack w) = Some layer →
  randomness layer = Error →
  (∀ (ExtraArgs : Type) (Func : list Z → ExtraArgs → Ext tensor) shape extra_args,
     RandomBatchRuleHelper_apply Func shape extra_args w =
     (Throw RandomnessModeError, w))
  ∧ (∀ (ExtraArgs : Type) (Func : Z → list Z → ExtraArgs → Ext tensor)
       high shape extra_args,
     RandIntBatchRuleHelper_apply Func high shape extra_args w =
     (Throw RandomnessModeError, w))
  ∧ (∀ (ExtraArgs : Type) (Func : Z → Z → list Z → ExtraArgs → Ext tensor)
       high low shape extra_args,
     RandIntLowBatchRuleHelper_apply Func high low shape extra_args w =
     (Throw RandomnessModeError, w))
  ∧ (∀ (ExtraArgs : Type) (Func : tensor → ExtraArgs → Ext tensor) self extra_args,
     RandomInplaceBatchRuleHelper_apply Func self extra_args w =
     (Throw RandomnessModeError, w))
  ∧ (∀ (ExtraArgs : Type) (Func : Z → ExtraArgs → Ext tensor) n extra_args,
     RandpermBatchRuleHelper_apply Func n extra_args w =
     (Throw RandomnessModeError, w))
  ∧ (∀ w0, check_randomness Error w0 = (Throw RandomnessModeError, w0))
  ∧ (∀ w0, check_randomness Same w0 = (Ok tt, w0))
  ∧ (∀ w0, check_randomness Different w0 = (Ok tt, w0)).
Proof.
  intros Hlayer Hmode.
  repeat split; intros;
    eauto using random_batching_rule_error, random_inplace_batching_rule_error,
      randperm_batching_rule_error.
Qed.

(** ** The layer stack *)

Lemma keeps_layers_ret {T} (x : T) : keeps_layers (ret x).
Proof. intros w. reflexivity. Qed.

Lemma keeps_layers_throw {T} e : keeps_layers (@throw _ T e).
Proof. intros w. reflexivity. Qed.

Lemma keeps_layers_bind {T U} (m : M T) (k : T → M U) :
  keeps_layers m → (∀ x, keeps_layers (k x)) → keeps_layers (bind m k).
Proof.
  intros Hm Hk w. unfold bind. specialize (Hm w).
  destruct (m w) as [[x|e] w1]; simpl in *.
  - rewrite Hk. exact Hm.
  - exact Hm.
Qed.

Lemma keeps_layers_invoke {T} c (f : Ext T) : keeps_layers (invoke c f).
Proof. intros w. unfold invoke. destruct (f (aten w)). reflexivity. Qed.

Lemma keeps_layers_guard {T} (body : M T) :
  keeps_layers body → keeps_layers (ExcludeDispatchKeyGuard body).
Proof.
  intros Hbody w. unfold ExcludeDispatchKeyGuard.
  specialize (Hbody (mkWorld (dynamicLayerStack w) true (aten w) (calls w))).
  destruct (body _) as [r w']. exact Hbody.
Qed.

Lemma keeps_layers_TORCH_CHECK cond msg : keeps_layers (TORCH_CHECK cond msg).
Proof. intros w. unfold TORCH_CHECK. destruct cond; reflexivity. Qed.

Lemma keeps_layers_deref {T} (o : option T) : keeps_layers (deref o).
Proof. intros w. destruct o; reflexivity. Qed.

Lemma keeps_layers_maybeCurrentDynamicLayer : keeps_layers maybeCurrentDynamicLayer.
Proof. intros w. reflexivity. Qed.

Lemma keeps_layers_randperm_loop {ExtraArgs : Type}
    (Func : Z → ExtraArgs → Ext tensor) n extra_args remaining :
  ∀ idx stackedList,
    keeps_layers (randperm_loop Func n extra_args remaining idx stackedList).
Proof.
  induction remaining as [|k IH]; intros idx l; simpl.
  - apply keeps_layers_ret.
  - apply keeps_layers_bind; [apply keeps_layers_invoke|]. intros t. apply IH.
Qed.

Create HintDb layers.
#[local] Hint Resolve keeps_layers_ret keeps_layers_throw keeps_layers_invoke
  keeps_layers_TORCH_CHECK keeps_layers_deref keeps_layers_maybeCurrentDynamicLayer
  keeps_layers_randperm_loop : layers.

(** Splits a rule along its binds and branches. *)
Ltac frame :=
  repeat first
    [ apply keeps_layers_guard
    | apply keeps_layers_bind; [|intros ?]
    | match goal with
      | |- keeps_layers (if ?b then _ else _) => destruct b
      | |- keeps_layers (let '(_, _) := ?x in _) => destruct x
      end
    | solve [unfold check_randomness, new_stackedList; auto with layers] ].

Lemma keeps_layers_random_batching_rule {ExtraArgs : Type}
    (Func : list Z → ExtraArgs → Ext tensor) shape extra_args :
  keeps_layers (random_batching_rule Func shape extra_args).
Proof. unfold random_batching_rule. frame. Qed.

Lemma keeps_layers_random_inplace_batching_rule {ExtraArgs : Type}
    (Func : tensor → ExtraArgs → Ext tensor) self extra_args :
  keeps_layers (random_inplace_batching_rule Func self extra_args).
Proof. unfold random_inplace_batching_rule. frame. Qed.

Lemma keeps_layers_randperm_batching_rule {ExtraArgs : Type}
    (Func : Z → ExtraArgs → Ext tensor) n extra_args :
  keeps_layers (randperm_batching_rule Func n extra_args).
Proof.
  unfold randperm_batching_rule. frame.
  unfold new_stackedList. destruct (_ || _); auto with layers.
Qed.

(** The guard puts the exclusion of the vmap key back however the rule
    ends. *)
Lemma guard_restores_exclusion {T} (body : M T) w :
  tls_excluded (ExcludeDispatchKeyGuard body w).2 = tls_excluded w.
Proof.
  unfold ExcludeDispatchKeyGuard. destruct (body _) as [r w']. reflexivity.
Qed.

(** The current layer, after a computation that keeps the stack, is the
    current layer before it. *)
Lemma keeps_layers_current_layer {T} (m : M T) w :
  keeps_layers m →
  (maybeCurrentDynamicLayer (m w).2).1 = (maybeCurrentDynamicLayer w).1.
Proof.
  intros Hm. unfold maybeCurrentDynamicLayer. simpl. rewrite Hm. reflexivity.
Qed.

(** C9: whatever the operator, the arguments, the mode and the way the
    call ends (result or exception), each of the five registered helpers
    leaves the dynamic layer stack exactly as it found it
    ([keeps_layers]): no layer is pushed, popped or changed, so the
    current layer after the call is the current layer before it, with
    its [batchSize], [layerId] and [randomness]. *)
Theorem rules_leave_the_layer_stack_alone :
  (∀ (ExtraArgs : Type) (Func : list Z → ExtraArgs → Ext tensor) shape extra_args,
     keeps_layers (RandomBatchRuleHelper_apply Func shape extra_args))
  ∧ (∀ (ExtraArgs : Type) (Func : Z → list Z → ExtraArgs → Ext tensor)
       high shape extra_args,
     keeps_layers (RandIntBatchRuleHelper_apply Func high shape extra_args))
  ∧ (∀ (ExtraArgs : Type) (Func : Z → Z → list Z → ExtraArgs → Ext tensor)
       high low shape extra_args,
     keeps_layers (RandIntLowBatchRuleHelper_apply Func high low shape extra_args))
  ∧ (∀ (ExtraArgs : Type) (Func : tensor → ExtraArgs → Ext tensor) self extra_args,
     keeps_layers (RandomInplaceBatchRuleHelper_apply Func self extra_args))
  ∧ (∀ (ExtraArgs : Type) (Func : Z → ExtraArgs → Ext tensor) n extra_args,
     keeps_layers (RandpermBatchRuleHelper_apply Func n extra_args)).
Proof.
  repeat split; intros;
    first [ apply keeps_layers_random_batching_rule
          | apply keeps_layers_random_inplace_batching_rule
          | apply keeps_layers_randperm_batching_rule ].
Qed.

(** ** Further properties of the rules *)

(** *** The permutation rule, the other paths *)

(** X1: under mode [Same] the permutation rule calls the real operator
    once, with [n] and the other arguments as they came, and its outcome
    is the operator's, result or exception, unwrapped, whatever the
    batch size and whatever the operator does.  If moreover the operator
    returns permutations when it returns, then whatever the rule returns
    has shape [[n]] and holds a permutation of [0, n). *)
Theorem randperm_same_draws_once {ExtraArgs : Type}
    (Func : Z → ExtraArgs → Ext tensor)
    (n : Z) (extra_args : ExtraArgs) (w : World) (layer : DynamicLayer) :
  last (dynamicLayerStack w) = Some layer →
  randomness layer = Same →
  RandpermBatchRuleHelper_apply Func n extra_args w =
    outcome id (call_Func_perm n) (Func n extra_args (aten w)) w
  ∧ (permutation_when_returned Func n extra_args →
     ∀ t w',
       RandpermBatchRuleHelper_apply Func n extra_args w = (Ok t, w') →
       w' = after_call w (call_Func_perm n) (aten w')
       ∧ sizes t = [n]
       ∧ is_permutation_of_range n (row (aten w') t [] n)).
Proof.
  intros Hlayer Hmode.
  unfold RandpermBatchRuleHelper_apply.
  rewrite (randperm_same_run Func n extra_args w layer) by assumption.
  split; [reflexivity|].
  intros Hperm t w' H. unfold outcome in H.
  destruct (Func n extra_args (aten w)) as [[t0|e] s'] eqn:E;
    simpl in H; inversion H; subst.
  split; [reflexivity|]. simpl. eapply Hperm, E.
Qed.

(** X2: under mode [Different] a negative batch size makes the
    permutation rule fail in the constructor of the vector, before any
    call: the world is as it was. *)
Theorem randperm_negative_batch_fails_before_any_call {ExtraArgs : Type}
    (Func : Z → ExtraArgs → Ext tensor)
    (n : Z) (extra_args : ExtraArgs) (w : World) (layer : DynamicLayer) :
  last (dynamicLayerStack w) = Some layer →
  randomness layer = Different →
  batchSize layer < 0 →
  RandpermBatchRuleHelper_apply Func n extra_args w = (Throw std_length_error, w).
Proof.
  intros Hlayer Hmode Hsize. destruct w as [stack tls s log]. simpl in Hlayer.
  run. rewrite Hlayer. simpl. rewrite Hmode. simpl.
  destruct (Z.ltb_spec (batchSize layer) 0) as [_|?]; [reflexivity|lia].
Qed.

(** X11: under mode [Different] a batch size beyond the largest size of
    a vector makes the permutation rule fail in the constructor of the
    vector too, before any call: no draw is made, whatever the operator,
    and the world is as it was. *)
Theorem randperm_oversized_batch_fails_before_any_call {ExtraArgs : Type}
    (Func : Z → ExtraArgs → Ext tensor)
    (n : Z) (extra_args : ExtraArgs) (w : World) (layer : DynamicLayer) :
  last (dynamicLayerStack w) = Some layer →
  randomness layer = Different →
  vector_max_size < batchSize layer →
  RandpermBatchRuleHelper_apply Func n extra_args w = (Throw std_length_error, w).
Proof.
  intros Hlayer Hmode Hsize. destruct w as [stack tls s log]. simpl in Hlayer.
  run. rewrite Hlayer. simpl. rewrite Hmode. simpl.
  destruct (Z.ltb_spec vector_max_size (batchSize layer)) as [_|?]; [|lia].
  rewrite orb_true_r. reflexivity.
Qed.

(** When one of the draws throws, the loop stops there: it has made at
    least one call and at most [remaining], and leaves the state the
    failing draw left. *)
Lemma randperm_loop_stops_at_failure {ExtraArgs : Type}
    (Func : Z → ExtraArgs → Ext tensor) n extra_args remaining :
  ∀ idx stackedList w e s',
    sequential_draws Func n extra_args remaining (aten w) = (Throw e, s') →
    ∃ made : nat,
      (1 ≤ made ≤ remaining)%nat
      ∧ randperm_loop Func n extra_args remaining idx stackedList w =
          (Throw e,
           mkWorld (dynamicLayerStack w) (tls_excluded w) s'
                   (calls w ++ replicate made (call_Func_perm n))).
Proof.
  induction remaining as [|k IH]; intros idx l w e s' H; simpl in H.
  - discriminate.
  - simpl. unfold bind, invoke.
    destruct (Func n extra_args (aten w)) as [[t|e1] s1] eqn:E1.
    + destruct (sequential_draws Func n extra_args k s1) as [[ts|e2] s2] eqn:E2;
        inversion H; subst.
      destruct (IH (S idx) (<[idx:=t]> l)
                  (mkWorld (dynamicLayerStack w) (tls_excluded w) s1
                           (calls w ++ [call_Func_perm n])) e s' E2)
        as (made & Hmade & Hrun).
      exists (S made). split; [lia|]. rewrite Hrun. simpl.
      rewrite <- app_assoc. reflexivity.
    + inversion H; subst. exists 1%nat. split; [lia|]. reflexivity.
Qed.

(** X3: under mode [Different], when one of the draws throws, the
    permutation rule throws the same exception; it has called the real
    operator at least once and at most [batchSize] times, has not called
    [at::stack], and the ATen state is the one the failing draw left:
    the draws made before the failure stay made.  The batch size is one
    a vector can have; beyond it no draw is made (X11). *)
Theorem randperm_different_stops_at_failing_draw {ExtraArgs : Type}
    (Func : Z → ExtraArgs → Ext tensor)
    (n : Z) (extra_args : ExtraArgs) (w : World) (layer : DynamicLayer)
    (e : Exn) (s' : State) :
  last (dynamicLayerStack w) = Some layer →
  randomness layer = Different →
  batchSize layer ≤ vector_max_size →
  sequential_draws Func n extra_args (Z.to_nat (batchSize layer)) (aten w)
    = (Throw e, s') →
  ∃ made : nat,
    (1 ≤ made ≤ Z.to_nat (batchSize layer))%nat
    ∧ RandpermBatchRuleHelper_apply Func n extra_args w =
        (Throw e,
         mkWorld (dynamicLayerStack w) (tls_excluded w) s'
                 (calls w ++ replicate made (call_Func_perm n))).
Proof.
  intros Hlayer Hmode Hmax Hdraws.
  assert (Hsize : 0 ≤ batchSize layer).
  { destruct (Z.le_gt_cases 0 (batchSize layer)) as [?|Hneg]; [assumption|].
    rewrite Z2Nat.nonpos in Hdraws by lia. discriminate. }
  destruct w as [stack tls s log]. simpl in Hlayer, Hdraws.
  destruct (randperm_loop_stops_at_failure Func n extra_args
              (Z.to_nat (batchSize layer)) 0%nat
              (replicate (Z.to_nat (batchSize layer)) undefined_tensor)
              (mkWorld stack true s log) e s' Hdraws)
    as (made & Hmade & Hrun).
  exists made. split; [exact Hmade|].
  run. rewrite Hlayer. simpl. rewrite Hmode. simpl.
  destruct (Z.ltb_spec (batchSize layer) 0) as [?|_]; [lia|].
  destruct (Z.ltb_spec vector_max_size (batchSize layer)) as [?|_]; [lia|].
  simpl. rewrite Hrun. reflexivity.
Qed.

(** X4: under mode [Different] with a batch size that is not negative
    and not beyond the largest size of a vector, when all the draws
    return, the permutation rule has called the real
    operator exactly [batchSize] times and then calls [at::stack] once,
    on exactly the [batchSize] results in the order drawn (no slot of the
    vector is left as constructed), in the state the last draw left; it
    returns the result of [at::stack] wrapped at dimension 0 and throws
    what [at::stack] throws. *)
Theorem randperm_different_hands_draws_to_stack {ExtraArgs : Type}
    (Func : Z → ExtraArgs → Ext tensor)
    (n : Z) (extra_args : ExtraArgs) (w : World) (layer : DynamicLayer)
    (ts : list tensor) (s' : State) :
  last (dynamicLayerStack w) = Some layer →
  randomness layer = Different →
  0 ≤ batchSize layer ≤ vector_max_size →
  sequential_draws Func n extra_args (Z.to_nat (batchSize layer)) (aten w)
    = (Ok ts, s') →
  let drawn :=
    mkWorld (dynamicLayerStack w) (tls_excluded w) s'
      (calls w ++ replicate (Z.to_nat (batchSize layer)) (call_Func_perm n)) in
  Z.of_nat (length ts) = batchSize layer
  ∧ RandpermBatchRuleHelper_apply Func n extra_args w =
      outcome (λ t, batched t 0 (layerId layer)) (call_stack ts)
              (at_stack ts 0 s') drawn
  ∧ operator_calls (calls (RandpermBatchRuleHelper_apply Func n extra_args w).2) =
      (operator_calls (calls w) + Z.to_nat (batchSize layer))%nat.
Proof.
  intros Hlayer Hmode Hsize Hdraws drawn.
  pose proof (sequential_draws_length _ _ _ _ _ _ _ Hdraws) as Hlen.
  split; [lia|].
  unfold RandpermBatchRuleHelper_apply.
  rewrite (randperm_different_run Func n extra_args w layer ts s') by assumption.
  split; [reflexivity|].
  unfold outcome, after_call, operator_calls. simpl.
  rewrite !sum_list_with_app. simpl.
  assert (Hrep : ∀ k : nat,
            sum_list_with (λ c, if is_operator_call c then 1%nat else 0%nat)
              (replicate k (call_Func_perm n)) = k).
  { induction k as [|k IH]; simpl; [reflexivity|]. rewrite IH. reflexivity. }
  rewrite Hrep. lia.
Qed.

(** *** The in-place rule, all paths together *)

(** X5: whenever the in-place rule returns, in whatever mode and branch,
    it returns the handle it was given, and it has called the real
    operator exactly once. *)
Theorem inplace_returns_self_after_one_draw {ExtraArgs : Type}
    (Func : tensor → ExtraArgs → Ext tensor)
    (self : tensor) (extra_args : ExtraArgs) (w : World)
    (t : tensor) (w' : World) :
  RandomInplaceBatchRuleHelper_apply Func self extra_args w = (Ok t, w') →
  t = self
  ∧ operator_calls (calls w') = S (operator_calls (calls w)).
Proof.
  destruct w as [stack tls s log]. run.
  destruct (last stack) as [layer|]; simpl; [|discriminate].
  destruct (unwrapTensorAtLevel self (layerId layer)) as [value bdim]. simpl.
  unfold operator_calls.
  destruct (randomness layer); simpl; [discriminate| |].
  - destruct bdim as [d|]; simpl.
    + destruct (at_empty _ _ s) as [[i|e] s1]; simpl; [|discriminate].
      destruct (Func i extra_args s1) as [[r2|e] s2]; simpl; [|discriminate].
      destruct (at_copy_ self i false s2) as [[r3|e] s3]; simpl; [|discriminate].
      intros H; inversion H; subst. split; [reflexivity|]. simpl.
      rewrite !sum_list_with_app. simpl. lia.
    + destruct (Func value extra_args s) as [[r|e] s1]; simpl; [|discriminate].
      intros H; inversion H; subst. split; [reflexivity|]. simpl.
      rewrite !sum_list_with_app. simpl. lia.
  - destruct bdim as [d|]; simpl; [|discriminate].
    destruct (Func _ extra_args s) as [[r|e] s1]; simpl; [|discriminate].
    intros H; inversion H; subst. split; [reflexivity|]. simpl.
    rewrite !sum_list_with_app. simpl. lia.
Qed.

(** X6: under mode [Same] on a target batched at the current level, when
    the real operator throws on the scratch tensor, the in-place rule
    throws the same exception and [copy_] is not called: the log ends
    with the allocation and the failed draw, so the rule has written
    nothing into the target. *)
Theorem same_inplace_failed_draw_skips_copy {ExtraArgs : Type}
    (Func : tensor → ExtraArgs → Ext tensor)
    (self : tensor) (extra_args : ExtraArgs) (w : World) (layer : DynamicLayer)
    (value : tensor) (bdim : Z) (intermediate : tensor) (e : Exn) (s1 s2 : State) :
  last (dynamicLayerStack w) = Some layer →
  randomness layer = Same →
  unwrapTensorAtLevel self (layerId layer) = (value, Some bdim) →
  at_empty (sizes self) (at_options self) (aten w) = (Ok intermediate, s1) →
  Func intermediate extra_args s1 = (Throw e, s2) →
  RandomInplaceBatchRuleHelper_apply Func self extra_args w =
    (Throw e,
     mkWorld (dynamicLayerStack w) (tls_excluded w) s2
       (calls w ++ [call_empty (sizes self); call_Func_inplace intermediate])).
Proof.
  intros Hlayer Hmode Hunwrap E1 E2.
  unfold RandomInplaceBatchRuleHelper_apply.
  rewrite (inplace_same_batched_run _ _ _ _ layer value bdim) by assumption.
  unfold bind, invoke, ret. simpl. rewrite E1. simpl. rewrite E2. simpl.
  rewrite <- app_assoc. reflexivity.
Qed.

(** *** The rules one after the other *)

(** Under mode [Different] on a target batched at the current level the
    in-place rule calls the operator on the value, batch dimension in
    front. *)
Lemma inplace_different_batched_run {ExtraArgs : Type}
    (Func : tensor → ExtraArgs → Ext tensor) self extra_args w layer value bdim :
  last (dynamicLayerStack w) = Some layer →
  randomness layer = Different →
  unwrapTensorAtLevel self (layerId layer) = (value, Some bdim) →
  random_inplace_batching_rule Func self extra_args w =
    outcome (λ _, self)
      (call_Func_inplace (moveBatchDimToFront value (Some bdim)))
      (Func (moveBatchDimToFront value (Some bdim)) extra_args (aten w)) w.
Proof.
  intros Hlayer Hmode Hunwrap. destruct w as [stack tls s log]. simpl in Hlayer.
  run. rewrite Hlayer. simpl. rewrite Hunwrap. simpl. rewrite Hmode. simpl.
  destruct (Func _ extra_args s) as [[t|e] s']; reflexivity.
Qed.

(** X8: under mode [Different] a tensor made by the shape rule is a
    target the in-place rule accepts at the same layer: the shape rule
    followed by the in-place rule on its result makes the two operator
    calls one after the other, the second directly on the tensor the
    first operator returned (no move of dimension, no scratch, no
    [UnsupportedInplaceRandomnessError] of the rule), and returns the
    batched handle. *)
Theorem shape_rule_result_is_an_inplace_target {Extra1 Extra2 : Type}
    (Func : list Z → Extra1 → Ext tensor)
    (FuncInplace : tensor → Extra2 → Ext tensor)
    (shape : list Z) (extra1 : Extra1) (extra2 : Extra2)
    (w : World) (layer : DynamicLayer) (t : tensor) (s1 : State) :
  last (dynamicLayerStack w) = Some layer →
  randomness layer = Different →
  Func ([batchSize layer] ++ shape) extra1 (aten w) = (Ok t, s1) →
  bind (RandomBatchRuleHelper_apply Func shape extra1)
       (λ x, RandomInplaceBatchRuleHelper_apply FuncInplace x extra2) w =
    outcome (λ _, batched t 0 (layerId layer)) (call_Func_inplace t)
      (FuncInplace t extra2 s1)
      (after_call w (call_Func_shape ([batchSize layer] ++ shape)) s1).
Proof.
  intros Hlayer Hmode E.
  unfold bind, RandomBatchRuleHelper_apply, RandomInplaceBatchRuleHelper_apply.
  rewrite (random_batching_rule_run Func shape extra1 w layer) by congruence.
  rewrite Hmode. simpl. simpl in E. unfold outcome at 1. rewrite E. simpl.
  rewrite (inplace_different_batched_run FuncInplace _ extra2 _ layer t 0);
    try assumption.
  - reflexivity.
  - simpl. rewrite bool_decide_true by reflexivity. reflexivity.
Qed.

(** X9: under mode [Different], with operators that return tensors of
    the shape they are asked for, whatever a shape-taking helper returns
    is a tensor batched at dimension 0 of the layer's level whose value
    has the physical shape [[batchSize] ++ shape] and whose logical
    shape is the requested [shape]. *)
Theorem different_result_has_batch_size_in_front {ExtraArgs : Type}
    (Func : list Z → ExtraArgs → Ext tensor)
    (FuncInt : Z → list Z → ExtraArgs → Ext tensor)
    (FuncLow : Z → Z → list Z → ExtraArgs → Ext tensor)
    (high low : Z) (shape : list Z) (extra_args : ExtraArgs) (w : World)
    (layer : DynamicLayer) :
  last (dynamicLayerStack w) = Some layer →
  randomness layer = Different →
  returns_requested_shape Func →
  returns_requested_shape (rand_int_wrapper FuncInt) →
  returns_requested_shape (rand_int_low_wrapper FuncLow) →
  ∀ t w',
    RandomBatchRuleHelper_apply Func shape extra_args w = (Ok t, w') ∨
    RandIntBatchRuleHelper_apply FuncInt high shape extra_args w = (Ok t, w') ∨
    RandIntLowBatchRuleHelper_apply FuncLow high low shape extra_args w = (Ok t, w') →
    ∃ value,
      t = batched value 0 (layerId layer)
      ∧ sizes value = [batchSize layer] ++ shape
      ∧ sizes t = shape.
Proof.
  intros Hlayer Hmode HF HI HL t w'.
  unfold RandomBatchRuleHelper_apply, RandIntBatchRuleHelper_apply,
    RandIntLowBatchRuleHelper_apply.
  rewrite !(random_batching_rule_run _ _ _ _ layer) by congruence.
  rewrite Hmode. simpl. unfold outcome.
  assert (Hwrap : ∀ value, sizes value = batchSize layer :: shape →
            ∃ v, batched value 0 (layerId layer) = batched v 0 (layerId layer)
                 ∧ sizes v = batchSize layer :: shape
                 ∧ sizes (batched value 0 (layerId layer)) = shape).
  { intros value Hsz. exists value. split; [reflexivity|]. split; [exact Hsz|].
    simpl. rewrite Hsz. reflexivity. }
  intros [H|[H|H]].
  - destruct (Func _ extra_args (aten w)) as [[t0|e] s'] eqn:E;
      simpl in H; inversion H; subst. apply Hwrap. eapply HF, E.
  - destruct (FuncInt high _ extra_args (aten w)) as [[t0|e] s'] eqn:E;
      simpl in H; inversion H; subst. apply Hwrap.
    apply (HI (batchSize layer :: shape) (high, extra_args) (aten w) t0 s'). exact E.
  - destruct (FuncLow high low _ extra_args (aten w)) as [[t0|e] s'] eqn:E;
      simpl in H; inversion H; subst. apply Hwrap.
    apply (HL (batchSize layer :: shape) (high, low, extra_args) (aten w) t0 s').
    exact E.
Qed.

End Properties.

(** * The simulated runtime keeps the contracts *)

Module SimFacts.
Import Sim.

Lemma sizes_shape_of (t : Tensor Impl) : sizes t = shape_of t.
Proof. induction t as [|impl|v IH d l]; simpl; congruence. Qed.

Lemma rand_returns_requested_shape : returns_requested_shape rand.
Proof.
  intros shape [] s t s' H. unfold rand, alloc, invalid in H.
  case_bool_decide; inversion H; subst. reflexivity.
Qed.

Lemma randint_returns_requested_shape :
  returns_requested_shape (rand_int_wrapper randint).
Proof.
  intros shape [high []] s t s' H. unfold rand_int_wrapper, randint, alloc, invalid in H.
  case_bool_decide; inversion H; subst. reflexivity.
Qed.

Lemma randint_low_returns_requested_shape :
  returns_requested_shape (rand_int_low_wrapper randint_low).
Proof.
  intros shape [[low high] []] s t s' H.
  unfold rand_int_low_wrapper, randint_low, alloc, invalid in H.
  case_bool_decide; inversion H; subst. reflexivity.
Qed.

Lemma sim_empty_has_size : empty_has_size.
Proof.
  intros size [] s t s' H. simpl in H. unfold empty, alloc, invalid in H.
  case_bool_decide; inversion H; subst. reflexivity.
Qed.

Lemma sim_movedim_is_view : movedim_is_view.
Proof. intros s t d b idx. destruct t; reflexivity. Qed.

(** Reading the tensor just allocated reads the cell it was given. *)
Lemma get_new_cell (s : St) shape cell draws' idx :
  get (mkSt draws' (heap s ++ [cell]))
      (plain (mkImpl (length (heap s)) shape [])) idx = cell idx.
Proof. unfold get. simpl. rewrite list_lookup_middle by reflexivity. reflexivity. Qed.

(** Allocation disturbs no cell. *)
Lemma alloc_preserves (s : St) cell draws' :
  preserves s (mkSt draws' (heap s ++ [cell])).
Proof.
  intros t idx v. simpl. unfold get. destruct t as [|impl|]; try discriminate.
  simpl. destruct (heap s !! loc impl) as [c|] eqn:E; [|discriminate].
  rewrite (lookup_app_l_Some _ _ _ _ E). auto.
Qed.

Lemma lookup_all (l : list Z) (n : Z) :
  length l = Z.to_nat n →
  (λ j, if bool_decide (0 ≤ j) then l !! Z.to_nat j else None) <$> seqZ 0 n
  = Some <$> l.
Proof.
  intros Hlen. apply list_eq. intros i.
  rewrite !list_lookup_fmap.
  destruct (decide (i < length l)%nat) as [Hi|Hi].
  - rewrite lookup_seqZ_lt by lia. cbn [fmap option_fmap option_map].
    rewrite Z.add_0_l, bool_decide_true by lia. rewrite Nat2Z.id.
    destruct (lookup_lt_is_Some_2 l i Hi) as [x Hx]. rewrite Hx. reflexivity.
  - rewrite lookup_seqZ_ge by lia. simpl.
    rewrite lookup_ge_None_2 by lia. reflexivity.
Qed.

Lemma rotate_Permutation {T} (k : nat) (l : list T) : rotate k l ≡ₚ l.
Proof.
  unfold rotate. rewrite Permutation_app_comm, take_drop. reflexivity.
Qed.

Lemma randperm_returns_permutation n :
  0 ≤ n → returns_permutation randperm n tt.
Proof.
  intros Hn s. unfold randperm. rewrite bool_decide_true by exact Hn.
  unfold alloc. eexists _, _. split; [reflexivity|].
  split; [discriminate|]. split; [reflexivity|].
  split; [|apply alloc_preserves].
  unfold is_permutation_of_range, row.
  erewrite list_fmap_ext;
    [|intros i j _; exact (get_new_cell s [n] _ (draws s + 1) ([] ++ [j]))].
  cbn [app]. rewrite lookup_all.
  - unfold permutation. apply fmap_Permutation, rotate_Permutation.
  - unfold permutation. rewrite length_rotate, length_seqZ. reflexivity.
Qed.

Lemma randperm_permutation_when_returned n :
  permutation_when_returned randperm n tt.
Proof.
  intros s t s' E.
  destruct (decide (0 ≤ n)) as [Hn|Hn].
  - destruct (randperm_returns_permutation n Hn s)
      as (t0 & s0 & E0 & _ & Hsz & Hrow & _).
    rewrite E in E0. inversion E0; subst. split; assumption.
  - unfold randperm, invalid in E. rewrite bool_decide_false in E by exact Hn.
    discriminate.
Qed.

Lemma sim_stack_stacks : stack_stacks.
Proof.
  intros s ts shape Hne Hall.
  destruct ts as [|t0 ts']; [congruence|].
  change (at_stack (t0 :: ts') 0 s) with (stack (t0 :: ts') 0 s).
  unfold stack, alloc. rewrite bool_decide_true by reflexivity.
  eexists _, _. split; [reflexivity|]. split.
  - simpl. apply Forall_inv in Hall as [_ Hsz].
    rewrite <- sizes_shape_of. rewrite Hsz. reflexivity.
  - intros i t idx Hi.
    change (@read runtime) with get. rewrite get_new_cell.
    rewrite bool_decide_true by lia. rewrite Nat2Z.id.
    unfold tensor in Hi |- *. cbn [TensorImpl runtime] in Hi |- *.
    rewrite Hi. reflexivity.
Qed.

Lemma insert_at_lookup d b (idx : list Z) :
  (Z.to_nat d ≤ length idx)%nat → insert_at d b idx !! Z.to_nat d = Some b.
Proof.
  intros Hd. unfold insert_at. apply list_lookup_middle.
  rewrite length_take. lia.
Qed.

Lemma delete_insert_at d b (idx : list Z) :
  (Z.to_nat d ≤ length idx)%nat → delete (Z.to_nat d) (insert_at d b idx) = idx.
Proof.
  intros Hd. unfold insert_at.
  replace (Z.to_nat d) with (length (take (Z.to_nat d) idx)) at 1
    by (rewrite length_take; lia).
  rewrite delete_middle. apply take_drop.
Qed.

Lemma sim_copy_broadcasts : copy_broadcasts.
Proof.
  intros s value bdim level src r s' E Hsz b idx Hb Hlen.
  simpl in E. unfold copy_, invalid in E.
  destruct value as [|v|]; try discriminate.
  destruct (heap s !! loc v) as [old|] eqn:Hcell; [|discriminate].
  case_bool_decide as Hok; [|discriminate].
  destruct Hok as (Hmoved & Hbdim & Hrank).
  inversion E; subst r s'. clear E.
  rewrite sizes_shape_of in Hlen.
  assert (Hd : (Z.to_nat bdim ≤ length idx)%nat) by lia.
  change (@read runtime) with get. unfold get at 1. simpl.
  rewrite list_lookup_insert_eq by (eapply lookup_lt_Some, Hcell).
  rewrite Hmoved. simpl.
  rewrite insert_at_lookup by exact Hd.
  rewrite bool_decide_true by exact Hb.
  rewrite delete_insert_at by exact Hd. reflexivity.
Qed.

End SimFacts.

(** * The rules on the simulated runtime *)

Section Runs.
Import Sim.

(** Every operator of the six families is registered, each overload with
    the rule of its signature; nothing else is. *)
Example registered_rules :
  length registrations = 18%nat
  ∧ rule_for "randn.generator" = Some RANDOM_BATCH_RULE
  ∧ rule_for "rand" = Some RANDOM_BATCH_RULE
  ∧ rule_for "random_.from" = Some RANDOM_INPLACE_BATCH_RULE
  ∧ rule_for "normal_" = Some RANDOM_INPLACE_BATCH_RULE
  ∧ rule_for "randint" = Some RANDINT_BATCH_RULE
  ∧ rule_for "randint.low" = Some RANDINT_LOW_BATCH_RULE
  ∧ rule_for "randperm" = Some RANDPERM_BATCH_RULE
  ∧ rule_for "bernoulli" = None.
Proof. repeat split; reflexivity. Qed.

(** The scenarios of the specification: batch size 3, [rand] of shape
    [[4; 4]] under [Different] and under [Same], and [randn] of shape
    [[2]] under [Error]. *)
Example rand_4_4_different :
  let x := RandomBatchRuleHelper_apply rand [4; 4] tt (world 3 1 Different) in
  x.1 = Ok (batched (plain (mkImpl 0 [3; 4; 4] [])) 0 1)
  ∧ calls x.2 = [call_Func_shape [3; 4; 4]]
  ∧ draws (aten x.2) = 1.
Proof. repeat split; reflexivity. Qed.

Example rand_4_4_same :
  let x := RandomBatchRuleHelper_apply rand [4; 4] tt (world 3 1 Same) in
  x.1 = Ok (plain (mkImpl 0 [4; 4] []))
  ∧ calls x.2 = [call_Func_shape [4; 4]]
  ∧ draws (aten x.2) = 1.
Proof. repeat split; reflexivity. Qed.

Example randn_2_error :
  let x := RandomBatchRuleHelper_apply rand [2] tt (world 3 1 Error) in
  x.1 = Throw RandomnessModeError ∧ calls x.2 = [] ∧ draws (aten x.2) = 0.
Proof. repeat split; reflexivity. Qed.

(** Three permutations of [0, 4) under [Different]: three draws, each
    from the state the one before left, so each row is rotated once more. *)
Example randperm_4_different :
  let x := RandpermBatchRuleHelper_apply randperm 4 tt (world 3 1 Different) in
  match x.1 with
  | Ok (batched r 0 1) =>
      sizes r = [3; 4]
      ∧ row (aten x.2) r [0] 4 = [Some 0; Some 1; Some 2; Some 3]
      ∧ row (aten x.2) r [1] 4 = [Some 1; Some 2; Some 3; Some 0]
      ∧ row (aten x.2) r [2] 4 = [Some 2; Some 3; Some 0; Some 1]
  | _ => False
  end.
Proof. vm_compute. repeat split; reflexivity. Qed.

(** [random_] under [Same] on a 2 by 3 target batched along dimension 1
    (three batch elements of shape [[2]]): the three columns are the one
    draw [[0; 1]]. *)
Example random__same_batched :
  let self := batched (target 2 3) 1 1 in
  let x := RandomInplaceBatchRuleHelper_apply random_ self tt
             (world_with_target 3 1 Same 2 3) in
  x.1 = Ok self
  ∧ ((λ i, (λ j, read (aten x.2) (target 2 3) [i; j]) <$> [0; 1; 2]) <$> [0; 1])
    = [[Some 0; Some 0; Some 0]; [Some 1; Some 1; Some 1]]
  ∧ draws (aten x.2) = 1.
Proof. repeat split; reflexivity. Qed.

End Runs.

(** ** Instances of the theorems *)

Lemma different_puts_batch_size_in_front_witness :
  let w := Sim.world 3 1 Different in
  let layer := mkLayer 3 1 Different in
  last (dynamicLayerStack w) = Some layer
  ∧ randomness layer = Different
  ∧ (RandomBatchRuleHelper_apply Sim.rand [4; 4] tt w).1 =
    Ok (batched (plain (Sim.mkImpl 0 [3; 4; 4] [])) 0 1)
  ∧ calls (RandomBatchRuleHelper_apply Sim.rand [4; 4] tt w).2 =
    [call_Func_shape [3; 4; 4]]
  ∧ RandIntBatchRuleHelper_apply Sim.randint 10 [4; 4] tt w =
    outcome (λ t, batched t 0 1) (call_Func_shape [3; 4; 4])
            (Sim.randint 10 [3; 4; 4] tt (aten w)) w
  ∧ RandIntLowBatchRuleHelper_apply Sim.randint_low 2 5 [4; 4] tt w =
    outcome (λ t, batched t 0 1) (call_Func_shape [3; 4; 4])
            (Sim.randint_low 2 5 [3; 4; 4] tt (aten w)) w.
Proof.
  intros w layer.
  destruct (different_puts_batch_size_in_front (A := Sim.runtime) Sim.rand Sim.randint
              Sim.randint_low 2 5 [4; 4] tt w layer eq_refl eq_refl)
    as (H1 & _ & H3).
  destruct (different_puts_batch_size_in_front (A := Sim.runtime) Sim.rand Sim.randint
              Sim.randint_low 10 0 [4; 4] tt w layer eq_refl eq_refl)
    as (_ & H2 & _).
  split; [reflexivity|]. split; [reflexivity|].
  rewrite H1. split; [reflexivity|]. split; [reflexivity|].
  split; [exact H2 | exact H3].
Defined.

Lemma error_mode_aborts_before_any_call_witness :
  let w := Sim.world_with_target 3 1 Error 2 3 in
  let layer := mkLayer 3 1 Error in
  last (dynamicLayerStack w) = Some layer
  ∧ randomness layer = Error
  ∧ RandomBatchRuleHelper_apply Sim.rand [2] tt w = (Throw RandomnessModeError, w)
  ∧ RandIntBatchRuleHelper_apply Sim.randint 10 [2] tt w =
    (Throw RandomnessModeError, w)
  ∧ RandIntLowBatchRuleHelper_apply Sim.randint_low 2 5 [2] tt w =
    (Throw RandomnessModeError, w)
  ∧ RandomInplaceBatchRuleHelper_apply Sim.random_ (Sim.target 2 3) tt w =
    (Throw RandomnessModeError, w)
  ∧ RandpermBatchRuleHelper_apply Sim.randperm 4 tt w =
    (Throw RandomnessModeError, w).
Proof.
  intros w layer.
  destruct (error_mode_aborts_before_any_call (A := Sim.runtime) w layer eq_refl eq_refl)
    as (H1 & H2 & H3 & H4 & H5 & _).
  split; [reflexivity|]. split; [reflexivity|].
  split; [apply H1|]. split; [apply H2|]. split; [apply H3|].
  split; [apply H4 | apply H5].
Defined.

Lemma same_inplace_on_batched_broadcasts_one_draw_witness :
  let w := Sim.world_with_target 3 1 Same 2 3 in
  let layer := mkLayer 3 1 Same in
  let value := Sim.target 2 3 in
  let self := batched value 1 1 in
  let scratch := plain (Sim.mkImpl 1 [2] []) in
  let front := plain (Sim.mkImpl 0 [3; 2] [1]) in
  let x := RandomInplaceBatchRuleHelper_apply Sim.random_ self tt w in
  last (dynamicLayerStack w) = Some layer
  ∧ randomness layer = Same
  ∧ unwrapTensorAtLevel self (layerId layer) = (value, Some 1)
  ∧ size_at value 1 = batchSize layer
  ∧ moveBatchDimToFront value (Some 1) = front
  ∧ x.1 = Ok self
  ∧ calls x.2 = [call_empty [2]; call_Func_inplace scratch; call_copy_ self scratch]
  ∧ read (aten x.2) front [0; 1] = read (aten x.2) front [2; 1].
Proof.
  intros w layer value self scratch front x.
  pose (s1 := (at_empty (sizes self) (at_options self) (aten w)).2).
  pose (s2 := (Sim.random_ scratch tt s1).2).
  pose (s3 := (at_copy_ self scratch false s2).2).
  destruct (same_inplace_on_batched_broadcasts_one_draw (A := Sim.runtime) Sim.random_ self tt w
              layer value 1 scratch scratch self s1 s2 s3
              eq_refl eq_refl eq_refl eq_refl
              SimFacts.sim_empty_has_size SimFacts.sim_copy_broadcasts
              SimFacts.sim_movedim_is_view eq_refl eq_refl eq_refl)
    as (H1 & _ & _ & H4).
  split; [reflexivity|]. split; [reflexivity|]. split; [reflexivity|].
  split; [reflexivity|]. split; [reflexivity|].
  subst x. rewrite H1. split; [reflexivity|]. split; [reflexivity|].
  apply (H4 0 2 [1]); simpl; [lia | lia | reflexivity].
Defined.

Lemma different_inplace_on_unbatched_aborts_witness :
  let w := Sim.world_with_target 3 1 Different 2 3 in
  let layer := mkLayer 3 1 Different in
  last (dynamicLayerStack w) = Some layer
  ∧ randomness layer = Different
  ∧ (unwrapTensorAtLevel (Sim.target 2 3) (layerId layer)).2 = None
  ∧ RandomInplaceBatchRuleHelper_apply Sim.random_ (Sim.target 2 3) tt w =
    (Throw UnsupportedInplaceRandomnessError, w).
Proof.
  intros w layer.
  split; [reflexivity|]. split; [reflexivity|]. split; [reflexivity|].
  exact (different_inplace_on_unbatched_aborts (A := Sim.runtime) Sim.random_ (Sim.target 2 3) tt
           w layer eq_refl eq_refl eq_refl).
Defined.

Lemma randperm_different_stacks_draws_witness :
  let w := Sim.world 3 1 Different in
  let layer := mkLayer 3 1 Different in
  last (dynamicLayerStack w) = Some layer
  ∧ randomness layer = Different
  ∧ 1 ≤ batchSize layer ≤ vector_max_size
  ∧ returns_permutation Sim.randperm 4 tt
  ∧ stack_stacks
  ∧ ∃ ts s_drawn r s_final,
      sequential_draws Sim.randperm 4 tt 3 (aten w) = (Ok ts, s_drawn)
      ∧ Z.of_nat (length ts) = 3
      ∧ at_stack ts 0 s_drawn = (Ok r, s_final)
      ∧ RandpermBatchRuleHelper_apply Sim.randperm 4 tt w =
          (Ok (batched r 0 1),
           mkWorld (dynamicLayerStack w) (tls_excluded w) s_final
             (calls w ++ replicate 3 (call_Func_perm 4) ++ [call_stack ts]))
      ∧ sizes r = [3; 4]
      ∧ (∀ (i : nat) t, ts !! i = Some t →
           row s_final r [Z.of_nat i] 4 = row s_drawn t [] 4)
      ∧ (∀ i, 0 ≤ i < 3 → is_permutation_of_range 4 (row s_final r [i] 4)).
Proof.
  intros w layer.
  assert (Hperm : returns_permutation Sim.randperm 4 tt)
    by (apply SimFacts.randperm_returns_permutation; lia).
  assert (Hsize : 1 ≤ batchSize layer ≤ vector_max_size)
    by (unfold vector_max_size; simpl; lia).
  split; [reflexivity|]. split; [reflexivity|]. split; [exact Hsize|].
  split; [exact Hperm|]. split; [exact SimFacts.sim_stack_stacks|].
  exact (randperm_different_stacks_draws (A := Sim.runtime) Sim.randperm 4 tt w layer
           eq_refl eq_refl Hsize Hperm SimFacts.sim_stack_stacks).
Defined.

Lemma same_draws_once_unbatched_witness :
  let w := Sim.world 3 1 Same in
  let layer := mkLayer 3 1 Same in
  let t := plain (Sim.mkImpl 0 [4; 4] []) in
  last (dynamicLayerStack w) = Some layer
  ∧ randomness layer = Same
  ∧ (RandomBatchRuleHelper_apply Sim.rand [4; 4] tt w).1 = Ok t
  ∧ calls (RandomBatchRuleHelper_apply Sim.rand [4; 4] tt w).2 =
    [call_Func_shape [4; 4]]
  ∧ sizes t = [4; 4].
Proof.
  intros w layer t.
  destruct (same_draws_once_unbatched (A := Sim.runtime) Sim.rand Sim.randint Sim.randint_low
              2 5 [4; 4] tt w layer eq_refl eq_refl
              SimFacts.rand_returns_requested_shape
              SimFacts.randint_returns_requested_shape
              SimFacts.randint_low_returns_requested_shape)
    as ((H1 & _ & _) & Hshape).
  split; [reflexivity|]. split; [reflexivity|].
  split; [rewrite H1; reflexivity|]. split; [rewrite H1; reflexivity|].
  apply (Hshape t (RandomBatchRuleHelper_apply (A := Sim.runtime) Sim.rand [4; 4] tt w).2).
  left. reflexivity.
Defined.

Lemma inplace_draws_on_unwrapped_value_witness :
  let w := Sim.world_with_target 3 1 Different 2 3 in
  let layer := mkLayer 3 1 Different in
  let self := batched (Sim.target 2 3) 1 1 in
  let front := plain (Sim.mkImpl 0 [3; 2] [1]) in
  last (dynamicLayerStack w) = Some layer
  ∧ (randomness layer = Different
     ∧ (unwrapTensorAtLevel self (layerId layer)).2 ≠ None)
  ∧ RandomInplaceBatchRuleHelper_apply Sim.random_ self tt w =
    outcome (λ _, self) (call_Func_inplace front) (Sim.random_ front tt (aten w)) w
  ∧ (RandomInplaceBatchRuleHelper_apply Sim.random_ self tt w).1 = Ok self.
Proof.
  intros w layer self front.
  assert (Hcase : randomness layer = Different
                  ∧ (unwrapTensorAtLevel self (layerId layer)).2 ≠ None)
    by (split; [reflexivity | discriminate]).
  destruct (inplace_draws_on_unwrapped_value (A := Sim.runtime) Sim.random_ self tt w layer
              eq_refl (or_intror Hcase)) as (H1 & _).
  split; [reflexivity|]. split; [exact Hcase|].
  split; [exact H1|]. rewrite H1. reflexivity.
Defined.

Lemma randint_adapters_forward_witness :
  let w := Sim.world 3 1 Different in
  let layer := mkLayer 3 1 Different in
  last (dynamicLayerStack w) = Some layer
  ∧ randomness layer ≠ Error
  ∧ RandIntBatchRuleHelper_apply Sim.randint 10 [2] tt w =
    outcome (λ t, batched t 0 1) (call_Func_shape [3; 2])
            (Sim.randint 10 [3; 2] tt (aten w)) w
  ∧ RandIntLowBatchRuleHelper_apply Sim.randint_low 2 5 [2] tt w =
    outcome (λ t, batched t 0 1) (call_Func_shape [3; 2])
            (Sim.randint_low 2 5 [3; 2] tt (aten w)) w.
Proof.
  intros w layer.
  assert (Hmode : randomness layer ≠ Error) by discriminate.
  destruct (randint_adapters_forward (A := Sim.runtime) Sim.randint Sim.randint_low 2 5 [2] tt
              w layer eq_refl Hmode) as (_ & _ & _ & HL).
  destruct (randint_adapters_forward (A := Sim.runtime) Sim.randint Sim.randint_low 10 0 [2] tt
              w layer eq_refl Hmode) as (_ & _ & HI & _).
  split; [reflexivity|]. split; [exact Hmode|]. split; [exact HI | exact HL].
Defined.

Lemma randperm_empty_batch_defers_to_stack_witness :
  let w := Sim.world 0 1 Different in
  let layer := mkLayer 0 1 Different in
  last (dynamicLayerStack w) = Some layer
  ∧ randomness layer = Different
  ∧ batchSize layer = 0
  ∧ (RandpermBatchRuleHelper_apply Sim.randperm 4 tt w).1 =
    Throw (c10_Error "stack expects a non-empty TensorList")
  ∧ calls (RandpermBatchRuleHelper_apply Sim.randperm 4 tt w).2 = [call_stack []].
Proof.
  intros w layer.
  destruct (randperm_empty_batch_defers_to_stack (A := Sim.runtime) Sim.randperm 4 tt w layer
              eq_refl eq_refl eq_refl) as (_ & Hcalls & Hthrow & _).
  split; [reflexivity|]. split; [reflexivity|]. split; [reflexivity|].
  split; [|exact Hcalls].
  apply (Hthrow _ (aten w)). reflexivity.
Defined.

(** C5, at the failing input: the claim has [randperm(n)] under
    [Different] return, for a batch size [B], a batched tensor of shape
    [[B; n]].  With [batchSize = 0] the code hands the empty list to
    [at::stack].  On the simulated runtime, whose operator keeps the
    contract of [randperm] and whose [at::stack] stacks every non-empty
    list but, like ATen's, rejects the empty one, [randperm(2)] returns
    no batched tensor of shape [[0; 2]]: it throws, after no draw.  In
    the same world the shape rule, for [rand] of shape [[2]], does return
    the empty batch, of shape [[0; 2]]. *)
Lemma randperm_empty_batch_returns_no_tensor :
  let w := Sim.world 0 1 Different in
  last (dynamicLayerStack w) = Some (mkLayer 0 1 Different)
  ∧ returns_permutation Sim.randperm 2 tt
  ∧ stack_stacks
  ∧ (RandpermBatchRuleHelper_apply Sim.randperm 2 tt w).1 =
    Throw (c10_Error "stack expects a non-empty TensorList")
  ∧ calls (RandpermBatchRuleHelper_apply Sim.randperm 2 tt w).2 = [call_stack []]
  ∧ (¬ ∃ r w',
        RandpermBatchRuleHelper_apply Sim.randperm 2 tt w = (Ok (batched r 0 1), w')
        ∧ sizes r = [0; 2])
  ∧ (RandomBatchRuleHelper_apply Sim.rand [2] tt w).1 =
    Ok (batched (plain (Sim.mkImpl 0 [0; 2] [])) 0 1).
Proof.
  intros w.
  split; [reflexivity|].
  split; [apply SimFacts.randperm_returns_permutation; lia|].
  split; [exact SimFacts.sim_stack_stacks|].
  split; [reflexivity|]. split; [reflexivity|].
  split; [|reflexivity].
  intros (r & w' & H & _).
  apply (f_equal fst) in H. vm_compute in H. discriminate H.
Qed.

(** ** Instances of the further properties *)

Lemma randperm_same_draws_once_witness :
  let w := Sim.world 3 1 Same in
  let layer := mkLayer 3 1 Same in
  let x := RandpermBatchRuleHelper_apply Sim.randperm 4 tt w in
  last (dynamicLayerStack w) = Some layer
  ∧ randomness layer = Same
  ∧ x.1 = Ok (plain (Sim.mkImpl 0 [4] []))
  ∧ calls x.2 = [call_Func_perm 4]
  ∧ sizes (plain (Sim.mkImpl 0 [4] [])) = [4]
  ∧ is_permutation_of_range 4 (row (aten x.2) (plain (Sim.mkImpl 0 [4] [])) [] 4)
  ∧ RandpermBatchRuleHelper_apply Sim.randperm (-1) tt w =
    (Throw (c10_Error "n must be non-negative"),
     after_call w (call_Func_perm (-1)) (aten w)).
Proof.
  intros w layer x.
  destruct (randperm_same_draws_once (A := Sim.runtime) Sim.randperm 4 tt w layer
              eq_refl eq_refl) as (H1 & H2).
  destruct (H2 (SimFacts.randperm_permutation_when_returned 4)
               (plain (Sim.mkImpl 0 [4] [])) x.2 eq_refl) as (_ & Hsz & Hrow).
  destruct (randperm_same_draws_once (A := Sim.runtime) Sim.randperm (-1) tt w
              layer eq_refl eq_refl) as (Hneg & _).
  split; [reflexivity|]. split; [reflexivity|].
  split; [subst x; rewrite H1; reflexivity|].
  split; [subst x; rewrite H1; reflexivity|].
  split; [exact Hsz|]. split; [exact Hrow|].
  rewrite Hneg. reflexivity.
Defined.

Lemma randperm_negative_batch_fails_before_any_call_witness :
  let w := Sim.world (-1) 1 Different in
  let layer := mkLayer (-1) 1 Different in
  last (dynamicLayerStack w) = Some layer
  ∧ randomness layer = Different
  ∧ batchSize layer < 0
  ∧ RandpermBatchRuleHelper_apply Sim.randperm 4 tt w = (Throw std_length_error, w).
Proof.
  intros w layer.
  split; [reflexivity|]. split; [reflexivity|]. split; [simpl; lia|].
  apply (randperm_negative_batch_fails_before_any_call (A := Sim.runtime)
           Sim.randperm 4 tt w layer eq_refl eq_refl).
  simpl. lia.
Defined.

Lemma randperm_oversized_batch_fails_before_any_call_witness :
  let w := Sim.world (2 ^ 61) 1 Different in
  let layer := mkLayer (2 ^ 61) 1 Different in
  last (dynamicLayerStack w) = Some layer
  ∧ randomness layer = Different
  ∧ vector_max_size < batchSize layer
  ∧ RandpermBatchRuleHelper_apply Sim.flaky_randperm 4 tt w =
    (Throw std_length_error, w).
Proof.
  intros w layer.
  assert (Hsize : vector_max_size < batchSize layer) by reflexivity.
  split; [reflexivity|]. split; [reflexivity|]. split; [exact Hsize|].
  exact (randperm_oversized_batch_fails_before_any_call (A := Sim.runtime)
           Sim.flaky_randperm 4 tt w layer eq_refl eq_refl Hsize).
Defined.

Lemma randperm_different_stops_at_failing_draw_witness :
  let w := Sim.world 3 1 Different in
  let layer := mkLayer 3 1 Different in
  let e := c10_Error "generator failure" in
  let s' := (sequential_draws Sim.flaky_randperm 4 tt 3 (aten w)).2 in
  last (dynamicLayerStack w) = Some layer
  ∧ randomness layer = Different
  ∧ batchSize layer ≤ vector_max_size
  ∧ sequential_draws Sim.flaky_randperm 4 tt 3 (aten w) = (Throw e, s')
  ∧ Sim.draws s' = 1
  ∧ ∃ made : nat,
      (1 ≤ made ≤ 3)%nat
      ∧ RandpermBatchRuleHelper_apply Sim.flaky_randperm 4 tt w =
          (Throw e,
           mkWorld (dynamicLayerStack w) (tls_excluded w) s'
                   (calls w ++ replicate made (call_Func_perm 4))).
Proof.
  intros w layer e s'.
  assert (Hmax : batchSize layer ≤ vector_max_size)
    by (unfold vector_max_size; simpl; lia).
  split; [reflexivity|]. split; [reflexivity|]. split; [exact Hmax|].
  split; [reflexivity|]. split; [reflexivity|].
  exact (randperm_different_stops_at_failing_draw (A := Sim.runtime)
           Sim.flaky_randperm 4 tt w layer e s' eq_refl eq_refl Hmax eq_refl).
Defined.

Lemma randperm_different_hands_draws_to_stack_witness :
  let w := Sim.world 3 1 Different in
  let layer := mkLayer 3 1 Different in
  let ts := [plain (Sim.mkImpl 0 [4] []); plain (Sim.mkImpl 1 [4] []);
             plain (Sim.mkImpl 2 [4] [])] in
  let s' := (sequential_draws Sim.randperm 4 tt 3 (aten w)).2 in
  last (dynamicLayerStack w) = Some layer
  ∧ randomness layer = Different
  ∧ 0 ≤ batchSize layer ≤ vector_max_size
  ∧ sequential_draws Sim.randperm 4 tt 3 (aten w) = (Ok ts, s')
  ∧ RandpermBatchRuleHelper_apply Sim.randperm 4 tt w =
      outcome (λ t, batched t 0 1) (call_stack ts) (at_stack ts 0 s')
        (mkWorld (dynamicLayerStack w) (tls_excluded w) s'
           (calls w ++ replicate 3 (call_Func_perm 4)))
  ∧ operator_calls (calls (RandpermBatchRuleHelper_apply Sim.randperm 4 tt w).2)
    = 3%nat.
Proof.
  intros w layer ts s'.
  assert (Hsize : 0 ≤ batchSize layer ≤ vector_max_size)
    by (unfold vector_max_size; simpl; lia).
  destruct (randperm_different_hands_draws_to_stack (A := Sim.runtime)
              Sim.randperm 4 tt w layer ts s' eq_refl eq_refl Hsize eq_refl)
    as (_ & Hrun & Hcount).
  split; [reflexivity|]. split; [reflexivity|]. split; [exact Hsize|].
  split; [reflexivity|]. split; [exact Hrun | exact Hcount].
Defined.

Lemma inplace_returns_self_after_one_draw_witness :
  let w := Sim.world_with_target 3 1 Same 2 3 in
  let self := batched (Sim.target 2 3) 1 1 in
  let x := RandomInplaceBatchRuleHelper_apply Sim.random_ self tt w in
  x = (Ok self, x.2)
  ∧ operator_calls (calls x.2) = S (operator_calls (calls w)).
Proof.
  intros w self x.
  assert (Hrun : x = (Ok self, x.2)) by reflexivity.
  split; [exact Hrun|].
  exact (proj2 (inplace_returns_self_after_one_draw (A := Sim.runtime)
                  Sim.random_ self tt w self x.2 Hrun)).
Defined.

Lemma same_inplace_failed_draw_skips_copy_witness :
  let w := Sim.world_with_target 3 1 Same 2 3 in
  let layer := mkLayer 3 1 Same in
  let value := Sim.target 2 3 in
  let self := batched value 1 1 in
  let scratch := plain (Sim.mkImpl 1 [2] []) in
  let e := c10_Error "generator failure" in
  let s1 := (at_empty (sizes self) (at_options self) (aten w)).2 in
  last (dynamicLayerStack w) = Some layer
  ∧ randomness layer = Same
  ∧ unwrapTensorAtLevel self (layerId layer) = (value, Some 1)
  ∧ at_empty (sizes self) (at_options self) (aten w) = (Ok scratch, s1)
  ∧ Sim.failing_random_ scratch tt s1 = (Throw e, s1)
  ∧ RandomInplaceBatchRuleHelper_apply Sim.failing_random_ self tt w =
      (Throw e,
       mkWorld (dynamicLayerStack w) (tls_excluded w) s1
         (calls w ++ [call_empty (sizes self); call_Func_inplace scratch]))
  ∧ read s1 value [0; 0] = Some 0.
Proof.
  intros w layer value self scratch e s1.
  split; [reflexivity|]. split; [reflexivity|]. split; [reflexivity|].
  split; [reflexivity|]. split; [reflexivity|].
  split; [|reflexivity].
  exact (same_inplace_failed_draw_skips_copy (A := Sim.runtime)
           Sim.failing_random_ self tt w layer value 1 scratch e s1 s1
           eq_refl eq_refl eq_refl eq_refl eq_refl).
Defined.

Lemma shape_rule_result_is_an_inplace_target_witness :
  let w := Sim.world 3 1 Different in
  let layer := mkLayer 3 1 Different in
  let t := plain (Sim.mkImpl 0 [3; 2] []) in
  let s1 := (Sim.rand [3; 2] tt (aten w)).2 in
  let x := bind (RandomBatchRuleHelper_apply Sim.rand [2] tt)
                (λ r, RandomInplaceBatchRuleHelper_apply Sim.random_ r tt) w in
  last (dynamicLayerStack w) = Some layer
  ∧ randomness layer = Different
  ∧ Sim.rand ([batchSize layer] ++ [2]) tt (aten w) = (Ok t, s1)
  ∧ x.1 = Ok (batched t 0 1)
  ∧ calls x.2 = [call_Func_shape [3; 2]; call_Func_inplace t]
  ∧ Sim.draws (aten x.2) = 2.
Proof.
  intros w layer t s1 x.
  pose proof (shape_rule_result_is_an_inplace_target (A := Sim.runtime)
                Sim.rand Sim.random_ [2] tt tt w layer t s1
                eq_refl eq_refl eq_refl) as Hrun.
  split; [reflexivity|]. split; [reflexivity|]. split; [reflexivity|].
  subst x. rewrite Hrun. repeat split; reflexivity.
Defined.

Lemma different_result_has_batch_size_in_front_witness :
  let w := Sim.world 3 1 Different in
  let layer := mkLayer 3 1 Different in
  let t := batched (plain (Sim.mkImpl 0 [3; 4; 4] [])) 0 1 in
  let x := RandomBatchRuleHelper_apply Sim.rand [4; 4] tt w in
  last (dynamicLayerStack w) = Some layer
  ∧ randomness layer = Different
  ∧ x = (Ok t, x.2)
  ∧ ∃ value,
      t = batched value 0 (layerId layer)
      ∧ sizes value = [batchSize layer] ++ [4; 4]
      ∧ sizes t = [4; 4].
Proof.
  intros w layer t x.
  assert (Hrun : x = (Ok t, x.2)) by reflexivity.
  split; [reflexivity|]. split; [reflexivity|]. split; [exact Hrun|].
  apply (different_result_has_batch_size_in_front (A := Sim.runtime)
           Sim.rand Sim.randint Sim.randint_low 2 5 [4; 4] tt w layer
           eq_refl eq_refl
           SimFacts.rand_returns_requested_shape
           SimFacts.randint_returns_requested_shape
           SimFacts.randint_low_returns_requested_shape t x.2).
  left. exact Hrun.
Defined.
